(** * EagleEye Lite: the rule-expression evaluator, the report accumulator,
      the rule loader and the audit workflow, embedded in Rocq.

    The development follows the Python sources:

    - [eagleeye/audit/evaluator.py]  (class [LogicEvaluator])   -> [Module Evaluator]
    - [eagleeye/models/finding.py]   (class [AuditReport])      -> [Module Report]
    - [eagleeye/models/rule.py], [eagleeye/rag/indexer.py]      -> [Module RuleSource]
    - [eagleeye/graph/state.py], [nodes.py], [workflow.py]      -> [Module Workflow]

    Python values are a small universe ([Py.value]); a Python [str] is the list
    of its Unicode code points; a [float] is a binary64 primitive float; an
    exception is a value of [Py.exn] carried by [Py.result].  What the Python
    runtime does and the repository does not define (the full expression
    grammar of [ast.parse], the built-in [eval], the Unicode tables) is an
    interface, [Host.PyHost]; [Module Reference] implements it on the fragment
    the worked examples use. *)

From Stdlib Require Import ZArith List Ascii String Floats Lia Bool.
From Stdlib Require DecimalString.
From stdpp Require Import base option list strings gmap.

Local Open Scope Z_scope.
Set Warnings "-register-all".

(* ===================================================================== *)
(** * Python strings                                                      *)
(* ===================================================================== *)

Module Str.

(** A Python [str]: its code points, in order. *)
Abbreviation pystr := (list Z).

(** [utf8 acc need bs] decodes UTF-8 bytes into code points; it lets the
    development write string literals, CJK field names included. *)
Fixpoint utf8 (acc : Z) (need : nat) (bs : list Z) : pystr :=
  match bs with
  | [] => []
  | b :: bs' =>
      match need with
      | O => if b <? 128 then b :: utf8 0 O bs'
             else if b <? 224 then utf8 (b - 192) 1%nat bs'
             else if b <? 240 then utf8 (b - 224) 2%nat bs'
             else utf8 (b - 240) 3%nat bs'
      | S O => (acc * 64 + (b - 128)) :: utf8 0 O bs'
      | S n => utf8 (acc * 64 + (b - 128)) n bs'
      end
  end.

Definition u (s : string) : pystr :=
  utf8 0 O (map (fun a => Z.of_N (N_of_ascii a)) (list_ascii_of_string s)).

Definition str_eqb (a b : pystr) : bool := bool_decide (a = b).

(** [s.startswith(p)] *)
Fixpoint starts_with (p s : pystr) : bool :=
  match p, s with
  | [], _ => true
  | a :: p', b :: s' => (a =? b) && starts_with p' s'
  | _ :: _, [] => false
  end.

(** [p in s] for strings: some suffix of [s] starts with [p]. *)
Fixpoint contains (p s : pystr) : bool :=
  starts_with p s || match s with [] => false | _ :: s' => contains p s' end.

(** Character tests.  Quote characters are written by code point. *)
Definition dquote : Z := 34.
Definition squote : Z := 39.
Definition backslash : Z := 92.

Definition in_range (lo hi c : Z) : bool := (lo <=? c) && (c <=? hi).
Definition is_ascii_digit (c : Z) : bool := in_range 48 57 c.
Definition is_ascii_alpha (c : Z) : bool := in_range 65 90 c || in_range 97 122 c.
Definition is_octal_digit (c : Z) : bool := in_range 48 55 c.

(** The ideographs the evaluator looks for: U+4E00 .. U+9FFF. *)
Definition is_cjk (c : Z) : bool := in_range 19968 40959 c.

(** Unicode white space ([str.isspace], [\s] of [re], [str.split], [str.strip]). *)
Definition is_space (c : Z) : bool :=
  in_range 9 13 c || in_range 28 32 c || (c =? 133) || (c =? 160) || (c =? 5760)
  || in_range 8192 8202 c || (c =? 8232) || (c =? 8233) || (c =? 8239)
  || (c =? 8287) || (c =? 12288).

(** [s.strip()] *)
Fixpoint lstrip (s : pystr) : pystr :=
  match s with
  | c :: s' => if is_space c then lstrip s' else s
  | [] => []
  end.
Definition rstrip (s : pystr) : pystr := rev (lstrip (rev s)).
Definition strip (s : pystr) : pystr := rstrip (lstrip s).

(** [s.split()]: the maximal runs of characters that are not white space. *)
Fixpoint split_ws_aux (cur : pystr) (s : pystr) : list pystr :=
  match s with
  | [] => match cur with [] => [] | _ => [rev cur] end
  | c :: s' =>
      if is_space c
      then match cur with [] => split_ws_aux [] s' | _ => rev cur :: split_ws_aux [] s' end
      else split_ws_aux (c :: cur) s'
  end.
Definition split_ws (s : pystr) : list pystr := split_ws_aux [] s.

(** [sep.join(parts)] *)
Fixpoint join (sep : pystr) (parts : list pystr) : pystr :=
  match parts with
  | [] => []
  | [p] => p
  | p :: ps => p ++ sep ++ join sep ps
  end.

(** [s.split(sep)] for a non-empty separator: left to right, no overlap. *)
Fixpoint split_on_aux (sep cur : pystr) (skip : nat) (s : pystr) : list pystr :=
  match s with
  | [] => [rev cur]
  | c :: s' =>
      match skip with
      | S k => split_on_aux sep cur k s'
      | O => if starts_with sep s
             then rev cur :: split_on_aux sep [] (length sep - 1) s'
             else split_on_aux sep (c :: cur) O s'
      end
  end.
Definition split_on (sep s : pystr) : list pystr := split_on_aux sep [] O s.

(** [s.replace(old, new)] for a non-empty [old]. *)
Definition replace (old new s : pystr) : pystr := join new (split_on old s).

(** Decimal digits of an integer, as [str(int)] prints them. *)
Definition of_Z (z : Z) : pystr := u (DecimalString.NilZero.string_of_int (Z.to_int z)).

End Str.
Export Str.

(* ===================================================================== *)
(** * Python values, exceptions and the operations the evaluator calls    *)
(* ===================================================================== *)

Module Py.

(** The values a financial record binds and an expression computes. *)
Inductive value :=
| VNone
| VBool (b : bool)
| VInt (z : Z)
| VFloat (f : float)
| VStr (s : pystr)
| VList (l : list value)
| VTuple (l : list value).

(** The operator node types of Python's [ast]. *)
Inductive operator := Add | Sub | Mult | Div | Mod | Pow | FloorDiv | OtherOperator.
Inductive unaryop := USub | UAdd | Not | Invert.
Inductive cmpop := Gt | Lt | GtE | LtE | Eq | NotEq | In | NotIn | Is | IsNot.
Inductive boolop := And | Or.

(** Exceptions: the instances of [Exception], which an [except Exception]
    catches.  The first five are the [ValueError]s the evaluator raises
    itself, told apart by their message; the others come from built-ins.
    (The evaluator's "Unsupported comparison" cannot be raised: it handles
    each of the ten comparison operators of [ast].) *)
Inductive exn :=
| UnsupportedOperator (op : operator)
| UnsupportedUnaryOperator (op : unaryop)
| UnsupportedFunction (name : option pystr)
| UnknownName (id : pystr)
| UnsupportedNode (kind : pystr)
| ValueError
| TypeError
| ZeroDivisionError
| OverflowError
| ReError
| JSONDecodeError
| ValidationError
| OtherException (name : pystr).

(** [isinstance(e, ValueError)]: [json.JSONDecodeError] and pydantic's
    [ValidationError] are subclasses of [ValueError]. *)
Definition is_ValueError (e : exn) : bool :=
  match e with
  | UnsupportedOperator _ | UnsupportedUnaryOperator _
  | UnsupportedFunction _ | UnknownName _ | UnsupportedNode _
  | ValueError | JSONDecodeError | ValidationError => true
  | _ => false
  end.

(** A computation that returns or raises. *)
Inductive result (A : Type) :=
| Ok (a : A)
| Raise (e : exn).
Arguments Ok {A} a.
Arguments Raise {A} e.

#[global] Instance result_ret : MRet result := fun A a => Ok a.
#[global] Instance result_fmap : FMap result := fun A B f c =>
  match c with
  | Ok a => Ok (f a)
  | Raise e => Raise e
  end.
#[global] Instance result_bind : MBind result := fun A B k c =>
  match c with
  | Ok a => k a
  | Raise e => Raise e
  end.

(** [[f(x) for x in xs]], left to right, stopping at the first exception. *)
Definition map_result {A B} (f : A -> result B) : list A -> result (list B) :=
  fix go (xs : list A) : result (list B) :=
    match xs with
    | [] => Ok []
    | x :: xs' => y ← f x; ys ← go xs'; Ok (y :: ys)
    end.

(** What is raised and is no [Exception]: an [except Exception] lets it
    through. *)
Inductive base_exn :=
| SystemExit
| KeyboardInterrupt
| GeneratorExit
| OtherBaseException (name : pystr).

(** How a call ends that may run any Python expression: it returns, it
    raises what no [except Exception] on the way catches, or it does not
    return. *)
Inductive completion (A : Type) :=
| Returns (a : A)
| Escapes (b : base_exn)
| Hangs.
Arguments Returns {A} a.
Arguments Escapes {A} b.
Arguments Hangs {A}.

#[global] Instance completion_ret : MRet completion := fun A a => Returns a.
#[global] Instance completion_fmap : FMap completion := fun A B f c =>
  match c with
  | Returns a => Returns (f a)
  | Escapes b => Escapes b
  | Hangs => Hangs
  end.
#[global] Instance completion_bind : MBind completion := fun A B k c =>
  match c with
  | Returns a => k a
  | Escapes b => Escapes b
  | Hangs => Hangs
  end.

(** ** Floats *)

(** [float(z)]: the nearest binary64 value, ties to even. *)
Definition float_of_Z (z : Z) : float := SF2Prim (binary_normalize prec emax z 0 false).

Definition exact_int (z : Z) : spec_float :=
  match z with
  | Z0 => S754_zero false
  | Zpos p => S754_finite false p 0
  | Zneg p => S754_finite true p 0
  end.

(** The correctly rounded quotient of two integers. *)
Definition truediv_Z (a b : Z) : float := SF2Prim (SFdiv prec emax (exact_int a) (exact_int b)).

(** The float a decimal literal [m * 10^e10] denotes. *)
Definition float_of_decimal (m e10 : Z) : float :=
  if 0 <=? e10 then float_of_Z (m * 10 ^ e10) else truediv_Z m (10 ^ (- e10)).

Definition is_infinite (f : float) : bool :=
  match Prim2SF f with S754_infinity _ => true | _ => false end.
Definition is_nan (f : float) : bool :=
  match Prim2SF f with S754_nan => true | _ => false end.

(** [float(z)] as arithmetic does it: too large an integer raises. *)
Definition int_to_float (z : Z) : result float :=
  let f := float_of_Z z in if is_infinite f then Raise OverflowError else Ok f.

(** A number as an exact value [m * 2^e], an infinity or NaN: Python compares
    an [int] with a [float] exactly, not after rounding the integer. *)
Inductive xnum := XNan | XInf (neg : bool) | XFin (m e : Z).

Definition xnum_of_float (f : float) : xnum :=
  match Prim2SF f with
  | S754_zero _ => XFin 0 0
  | S754_infinity s => XInf s
  | S754_nan => XNan
  | S754_finite s m e => XFin (if s then Zneg m else Zpos m) e
  end.

Definition xnum_of (v : value) : option xnum :=
  match v with
  | VBool b => Some (XFin (if b then 1 else 0) 0)
  | VInt z => Some (XFin z 0)
  | VFloat f => Some (xnum_of_float f)
  | _ => None
  end.

(** [None] when a NaN makes the two unordered. *)
Definition xcompare (a b : xnum) : option comparison :=
  match a, b with
  | XNan, _ | _, XNan => None
  | XInf s1, XInf s2 => Some (if s1 then (if s2 then Datatypes.Eq else Datatypes.Lt)
                              else (if s2 then Datatypes.Gt else Datatypes.Eq))
  | XInf s, XFin _ _ => Some (if s then Datatypes.Lt else Datatypes.Gt)
  | XFin _ _, XInf s => Some (if s then Datatypes.Gt else Datatypes.Lt)
  | XFin m1 e1, XFin m2 e2 =>
      let e := Z.min e1 e2 in
      Some (Z.compare (m1 * 2 ^ (e1 - e)) (m2 * 2 ^ (e2 - e)))
  end.

End Py.
Export Py.

(* ===================================================================== *)
(** * Expression trees and the host interface                             *)
(* ===================================================================== *)

Module Ast.

(** The node types of Python's [ast] that [_eval_node] tells apart.
    [Constant] stands for [ast.Constant] and its legacy aliases ([Num],
    [Str], [NameConstant]); [OtherNode] is any other node type ([ListComp],
    [Attribute], [Subscript], [Lambda], [Starred], ...), with its class name.
    A [Call] keeps no keyword arguments: the evaluator never reads them. *)
Inductive expr :=
| Constant (v : value)
| EList (elts : list expr)
| ETuple (elts : list expr)
| BinOp (left : expr) (op : operator) (right : expr)
| UnaryOp (op : unaryop) (operand : expr)
| Compare (left : expr) (ops : list cmpop) (comparators : list expr)
| BoolOp (op : boolop) (values : list expr)
| Call (func : expr) (args : list expr)
| Name (id : pystr)
| IfExp (test body orelse : expr)
| GeneratorExp (elt : expr) (target iter : expr) (ifs : list expr)
               (more_generators : list (expr * expr * list expr))
| OtherNode (kind : pystr).

(** What [ast.parse(text, mode='eval')] does: a tree, a [SyntaxError], or
    another exception. *)
Inductive parse_result :=
| Parsed (body : expr)
| SyntaxError
| ParseRaises (e : exn).

End Ast.
Export Ast.

Module Host.

(** What the Python runtime provides and the repository does not define. *)
Class PyHost := {
  (** [ast.parse(text, mode='eval')] *)
  ast_parse : pystr -> parse_result;
  (** [float(eval(text))] where the local variables are [locals].  [eval]
      runs any Python expression: the call returns a float, raises an
      [Exception], raises what is none (a call of [exit] raises
      [SystemExit]), or does not return. *)
  builtin_eval_float : list (pystr * value) -> pystr -> completion (result float);
  (** [sys.get_int_max_str_digits()]: the most decimal digits [str] writes
      an integer with (4300 unless set otherwise, from CPython 3.11 on);
      [0] where the interpreter has no such limit *)
  int_max_str_digits : Z;
  (** arithmetic outside the integers and the four float operations:
      [%] and [**] on floats, [**] with a negative exponent, [str % args] *)
  host_arith : operator -> value -> value -> result value;
  (** object identity of two values that are neither [None] nor booleans *)
  host_is : value -> value -> bool;
  (** [str.isalnum] of a character beyond ASCII and the CJK ideographs *)
  unicode_alnum : Z -> bool;
  (** [str.isprintable] of a character beyond ASCII *)
  unicode_printable : Z -> bool;
  (** the value of a decimal digit beyond ASCII, as [float(str)] reads it *)
  unicode_digit : Z -> option Z
}.

End Host.
Export Host.

(* ===================================================================== *)
(** * What Python's operators and built-ins do on these values            *)
(* ===================================================================== *)

Module Ops.
Section WithHost.
Context `{PyHost}.

(** [bool(v)] *)
Definition truthy (v : value) : bool :=
  match v with
  | VNone => false
  | VBool b => b
  | VInt z => negb (z =? 0)
  | VFloat f => negb (PrimFloat.eqb f 0)
  | VStr s => match s with [] => false | _ => true end
  | VList l | VTuple l => match l with [] => false | _ => true end
  end.

(** [a == b] *)
Fixpoint py_eq (a b : value) : bool :=
  match a, b with
  | VNone, VNone => true
  | VStr s, VStr t => str_eqb s t
  | VList l, VList m | VTuple l, VTuple m =>
      (fix go (l m : list value) : bool :=
         match l, m with
         | [], [] => true
         | x :: l', y :: m' => py_eq x y && go l' m'
         | _, _ => false
         end) l m
  | _, _ =>
      match xnum_of a, xnum_of b with
      | Some x, Some y => match xcompare x y with Some Datatypes.Eq => true | _ => false end
      | _, _ => false
      end
  end.

Definition order_holds (op : cmpop) (c : option comparison) : bool :=
  match op, c with
  | Lt, Some Datatypes.Lt => true
  | LtE, Some Datatypes.Lt | LtE, Some Datatypes.Eq => true
  | Gt, Some Datatypes.Gt => true
  | GtE, Some Datatypes.Gt | GtE, Some Datatypes.Eq => true
  | _, _ => false
  end.

Fixpoint str_compare (a b : pystr) : comparison :=
  match a, b with
  | [], [] => Datatypes.Eq
  | [], _ :: _ => Datatypes.Lt
  | _ :: _, [] => Datatypes.Gt
  | x :: a', y :: b' => match Z.compare x y with Datatypes.Eq => str_compare a' b' | c => c end
  end.

(** [a < b], [a <= b], [a > b], [a >= b]: numbers by value, strings and
    sequences lexicographically, anything else a [TypeError]. *)
Fixpoint py_order (op : cmpop) (a b : value) : result bool :=
  match a, b with
  | VStr s, VStr t => Ok (order_holds op (Some (str_compare s t)))
  | VList l, VList m | VTuple l, VTuple m =>
      (fix go (l m : list value) : result bool :=
         match l, m with
         | x :: l', y :: m' => if py_eq x y then go l' m' else py_order op x y
         | _, _ => Ok (order_holds op (Some (Nat.compare (length l) (length m))))
         end) l m
  | _, _ =>
      match xnum_of a, xnum_of b with
      | Some x, Some y => Ok (order_holds op (xcompare x y))
      | _, _ => Raise TypeError
      end
  end.

(** [x in c] *)
Definition py_contains (x c : value) : result bool :=
  match c with
  | VList l | VTuple l => Ok (existsb (py_eq x) l)
  | VStr s => match x with VStr t => Ok (contains t s) | _ => Raise TypeError end
  | _ => Raise TypeError
  end.

(** [a is b]: [None], [True] and [False] are singletons. *)
Definition py_is (a b : value) : bool :=
  match a, b with
  | VNone, VNone => true
  | VBool x, VBool y => Bool.eqb x y
  | VNone, _ | _, VNone | VBool _, _ | _, VBool _ => false
  | _, _ => host_is a b
  end.

Definition as_int (v : value) : option Z :=
  match v with
  | VBool b => Some (if b then 1 else 0)
  | VInt z => Some z
  | _ => None
  end.

Definition as_float (v : value) : option (result float) :=
  match v with
  | VFloat f => Some (Ok f)
  | _ => match as_int v with Some z => Some (int_to_float z) | None => None end
  end.

(** [seq * n]: a count beyond [sys.maxsize] is an [OverflowError], a result
    longer than that a [MemoryError]. *)
Definition repeat_seq {A} (wrap : list A -> value) (n : Z) (l : list A) : result value :=
  if 2 ^ 63 <=? n then Raise OverflowError
  else if 2 ^ 63 <=? n * Z.of_nat (length l) then Raise (OtherException (u "MemoryError"))
  else Ok (wrap (concat (replicate (Z.to_nat n) l))).

(** [operator.add], [sub], [mul], [truediv], [mod], [pow] *)
Definition py_binop (op : operator) (a b : value) : result value :=
  match as_int a, as_int b with
  | Some x, Some y =>
      match op with
      | Add => Ok (VInt (x + y))
      | Sub => Ok (VInt (x - y))
      | Mult => Ok (VInt (x * y))
      | Div => if y =? 0 then Raise ZeroDivisionError
               else let f := truediv_Z x y in
                    if is_infinite f then Raise OverflowError else Ok (VFloat f)
      | Mod => if y =? 0 then Raise ZeroDivisionError else Ok (VInt (x mod y))
      | Pow => if 0 <=? y then Ok (VInt (x ^ y)) else host_arith op a b
      | _ => host_arith op a b
      end
  | _, _ =>
      match as_float a, as_float b with
      | Some fa, Some fb =>
          match op with
          | Add => x ← fa; y ← fb; Ok (VFloat (x + y))
          | Sub => x ← fa; y ← fb; Ok (VFloat (x - y))
          | Mult => x ← fa; y ← fb; Ok (VFloat (x * y))
          | Div => x ← fa; y ← fb;
                   if PrimFloat.eqb y 0 then Raise ZeroDivisionError else Ok (VFloat (x / y))
          | _ => host_arith op a b
          end
      | _, _ =>
          match op, a, b with
          | Add, VStr s, VStr t => Ok (VStr (s ++ t))
          | Add, VList l, VList m => Ok (VList (l ++ m))
          | Add, VTuple l, VTuple m => Ok (VTuple (l ++ m))
          | Mult, VStr s, _ => match as_int b with Some n => repeat_seq VStr n s | None => Raise TypeError end
          | Mult, VList l, _ => match as_int b with Some n => repeat_seq VList n l | None => Raise TypeError end
          | Mult, VTuple l, _ => match as_int b with Some n => repeat_seq VTuple n l | None => Raise TypeError end
          | Mult, _, VStr s => match as_int a with Some n => repeat_seq VStr n s | None => Raise TypeError end
          | Mult, _, VList l => match as_int a with Some n => repeat_seq VList n l | None => Raise TypeError end
          | Mult, _, VTuple l => match as_int a with Some n => repeat_seq VTuple n l | None => Raise TypeError end
          | Mod, VStr _, _ => host_arith op a b
          | _, _, _ => Raise TypeError
          end
      end
  end.

(** [operator.neg], [pos], [not_] *)
Definition py_unary (op : unaryop) (v : value) : result value :=
  match op with
  | Not => Ok (VBool (negb (truthy v)))
  | USub => match v with
            | VFloat f => Ok (VFloat (- f))
            | _ => match as_int v with Some z => Ok (VInt (- z)) | None => Raise TypeError end
            end
  | UAdd => match v with
            | VFloat f => Ok v
            | _ => match as_int v with Some z => Ok (VInt z) | None => Raise TypeError end
            end
  | Invert => match as_int v with Some z => Ok (VInt (- z - 1)) | None => Raise TypeError end
  end.

(** [list(v)]: what a [for] loop over [v] visits. *)
Definition py_iter (v : value) : result (list value) :=
  match v with
  | VList l | VTuple l => Ok l
  | VStr s => Ok (map (fun c => VStr [c]) s)
  | _ => Raise TypeError
  end.

(** [max] ([op = Gt]) and [min] ([op = Lt]) of a sequence: the first
    extreme element; an empty sequence is a [ValueError]. *)
Definition extreme (op : cmpop) (xs : list value) : result value :=
  match xs with
  | [] => Raise ValueError
  | x :: rest =>
      fold_left (fun (acc : result value) (y : value) =>
                   m ← acc; b ← py_order op y m; Ok (if (b : bool) then y else m)) rest (Ok x)
  end.

(** [sum(xs, start)]: a left fold of [+] (floats included, as up to
    Python 3.11). *)
Definition py_sum (xs : list value) (start : value) : result value :=
  match start with
  | VStr _ => Raise TypeError
  | _ => fold_left (fun (acc : result value) (y : value) => a ← acc; py_binop Add a y) xs (Ok start)
  end.

End WithHost.
End Ops.
Export Ops.

(* ===================================================================== *)
(** * [str] and [repr] of values                                          *)
(* ===================================================================== *)

Module Repr.

(** ** [repr(float)]: the shortest decimal string that reads back as the
    same float, the closest one to it among the shortest. *)

(** [10^e <= num / den] *)
Definition ge_pow10 (num den e : Z) : bool :=
  if 0 <=? e then 10 ^ e * den <=? num else den <=? num * 10 ^ (- e).

Fixpoint decimal_exponent_from (fuel : nat) (num den e : Z) : Z :=
  match fuel with
  | O => e
  | S k => if ge_pow10 num den (e + 1) then decimal_exponent_from k num den (e + 1) else e
  end.

(** [floor (log10 (num / den))], from an under-estimate off by at most two. *)
Definition decimal_exponent (num den : Z) : Z :=
  decimal_exponent_from 4 num den (((Z.log2 num - Z.log2 den - 1) * 30103) / 100000 - 1).

(** The [k]-digit candidates next to [num / den], the closer one first,
    as pairs [(digits, q)] that stand for [digits * 10^q]. *)
Definition candidates (num den e10 k : Z) : list (Z * Z) :=
  let q := e10 - (k - 1) in
  let sn := if 0 <=? q then num else num * 10 ^ (- q) in
  let sd := if 0 <=? q then den * 10 ^ q else den in
  let lo := sn / sd in
  let r := sn mod sd in
  if r =? 0 then [(lo, q)]
  else if (2 * r <? sd) || ((2 * r =? sd) && Z.even lo)
       then [(lo, q); (lo + 1, q)]
       else [(lo + 1, q); (lo, q)].

Fixpoint shortest_from (fuel : nat) (x : float) (num den e10 k : Z) : Z * Z :=
  match fuel with
  | O => (0, 0)
  | S n =>
      match filter (fun c => PrimFloat.eqb (float_of_decimal (fst c) (snd c)) x)
                   (candidates num den e10 k) with
      | c :: _ => c
      | [] => shortest_from n x num den e10 (k + 1)
      end
  end.

Fixpoint strip_zeros (fuel : nat) (d q : Z) : Z * Z :=
  match fuel with
  | O => (d, q)
  | S n => if (d mod 10 =? 0) && negb (d =? 0) then strip_zeros n (d / 10) (q + 1) else (d, q)
  end.

(** The digits and the position of the decimal point ([0.digits * 10^decpt])
    of a positive finite float [m * 2^e]. *)
Definition shortest_digits (x : float) (m e : Z) : pystr * Z :=
  let num := m * 2 ^ Z.max e 0 in
  let den := 2 ^ Z.max (- e) 0 in
  let '(d, q) := shortest_from 17 x num den (decimal_exponent num den) 1 in
  let '(d, q) := strip_zeros 20 d q in
  let ds := of_Z d in
  (ds, Z.of_nat (length ds) + q).

Definition zeros (n : Z) : pystr := replicate (Z.to_nat n) 48.

(** Fixed notation while [-4 < decpt <= 16], exponent notation otherwise. *)
Definition format_repr (ds : pystr) (decpt : Z) : pystr :=
  let n := Z.of_nat (length ds) in
  if (decpt <=? -4) || (16 <? decpt) then
    let ex := decpt - 1 in
    let mant := match ds with
                | [] => []
                | [d] => [d]
                | d :: rest => d :: 46 :: rest
                end in
    let ed := of_Z (Z.abs ex) in
    mant ++ [101] ++ (if ex <? 0 then [45] else [43])
         ++ (if Z.abs ex <? 10 then 48 :: ed else ed)
  else if decpt <=? 0 then [48; 46] ++ zeros (- decpt) ++ ds
  else if n <=? decpt then ds ++ zeros (decpt - n) ++ [46; 48]
  else take (Z.to_nat decpt) ds ++ [46] ++ drop (Z.to_nat decpt) ds.

Definition float_repr (f : float) : pystr :=
  match Prim2SF f with
  | S754_nan => u "nan"
  | S754_infinity s => if s then u "-inf" else u "inf"
  | S754_zero s => if s then u "-0.0" else u "0.0"
  | S754_finite s m e =>
      let '(ds, decpt) := shortest_digits (PrimFloat.abs f) (Zpos m) e in
      (if s then [45] else []) ++ format_repr ds decpt
  end.

Section WithHost.
Context `{PyHost}.

Definition hex_digit (d : Z) : Z := if d <? 10 then 48 + d else 87 + d.

Fixpoint hex_fixed (width : nat) (c : Z) : pystr :=
  match width with
  | O => []
  | S w => hex_fixed w (c / 16) ++ [hex_digit (c mod 16)]
  end.

(** How [repr(str)] writes one character inside quotes [q]. *)
Definition repr_char (q c : Z) : pystr :=
  if (c =? backslash) || (c =? q) then [backslash; c]
  else if c =? 9 then u "\t"
  else if c =? 10 then u "\n"
  else if c =? 13 then u "\r"
  else if (c <? 32) || (c =? 127) then u "\x" ++ hex_fixed 2 c
  else if c <? 127 then [c]
  else if unicode_printable c then [c]
  else if c <? 256 then u "\x" ++ hex_fixed 2 c
  else if c <? 65536 then u "\u" ++ hex_fixed 4 c
  else u "\U" ++ hex_fixed 8 c.

(** [repr(str)]: single quotes, unless the text has one and no double quote. *)
Definition repr_str (s : pystr) : pystr :=
  let q := if bool_decide (squote ∈ s) && negb (bool_decide (dquote ∈ s))
           then dquote else squote in
  [q] ++ concat (map (repr_char q) s) ++ [q].

(** [repr(z)] of an integer: its decimal digits, and a [ValueError] when
    they are more than the interpreter writes. *)
Definition int_repr (z : Z) : result pystr :=
  let digits := of_Z (Z.abs z) in
  if (0 <? int_max_str_digits) && (int_max_str_digits <? Z.of_nat (length digits))
  then Raise ValueError
  else Ok (of_Z z).

(** [repr(v)] *)
Fixpoint repr (v : value) : result pystr :=
  match v with
  | VNone => Ok (u "None")
  | VBool b => Ok (if b then u "True" else u "False")
  | VInt z => int_repr z
  | VFloat f => Ok (float_repr f)
  | VStr s => Ok (repr_str s)
  | VList l => items ← map_result repr l; Ok (u "[" ++ join (u ", ") items ++ u "]")
  | VTuple l =>
      items ← map_result repr l;
      Ok (match items with
          | [x] => u "(" ++ x ++ u ",)"
          | _ => u "(" ++ join (u ", ") items ++ u ")"
          end)
  end.

(** [str(v)]: a string prints as itself, anything else as its [repr]. *)
Definition str (v : value) : result pystr :=
  match v with
  | VStr s => Ok s
  | _ => repr v
  end.

End WithHost.
End Repr.
Export Repr.

(* ===================================================================== *)
(** * The regular expressions of the evaluator                            *)
(* ===================================================================== *)

Module Re.

(** The patterns the evaluator hands to [re] are sequences of the following
    atoms, some of them captured as groups.  Matching backtracks the way
    [re] does: a repetition is greedy and gives characters back one at a
    time, an alternation tries its branches in the order written. *)
Inductive atom :=
| ALit (s : pystr)                      (* literal text *)
| ABoundary                             (* \b *)
| AMany (p : Z -> bool) (least : nat)   (* [class]* or [class]+ , greedy *)
| AAlt (alts : list pystr).             (* a|b|c over literal branches *)

Record item := Item { captured : bool; body : atom }.

Definition regex := list item.

Definition plain (a : atom) : item := Item false a.
Definition group (a : atom) : item := Item true a.

(** What a scan of the text finds: characters outside any match, and the
    matches with their groups. *)
Inductive piece :=
| Keep (c : Z)
| Hit (whole : pystr) (groups : list pystr).

Section WithHost.
Context `{PyHost}.

(** [\w] for a [str] pattern: alphanumeric in Unicode, or the underscore. *)
Definition is_word (c : Z) : bool :=
  if c <? 128 then is_ascii_digit c || is_ascii_alpha c || (c =? 95)
  else is_cjk c || unicode_alnum c.

Definition is_word_opt (c : option Z) : bool :=
  match c with Some x => is_word x | None => false end.

(** [\b] between the characters [prev] and [next]. *)
Definition at_boundary (prev next : option Z) : bool :=
  xorb (is_word_opt prev) (is_word_opt next).

Definition last_of (prev : option Z) (consumed : pystr) : option Z :=
  match last consumed with Some c => Some c | None => prev end.

Fixpoint run_length (p : Z -> bool) (s : pystr) : nat :=
  match s with
  | c :: s' => if p c then S (run_length p s') else O
  | [] => O
  end.

(** [re_match r prev s]: a match of [r] at the start of [s], whose previous
    character is [prev]; the groups in order and the length matched. *)
Fixpoint re_match (r : regex) (prev : option Z) (s : pystr) : option (list pystr * nat) :=
  match r with
  | [] => Some ([], O)
  | it :: r' =>
      let continue (n : nat) : option (list pystr * nat) :=
        let consumed := take n s in
        match re_match r' (last_of prev consumed) (drop n s) with
        | Some (gs, k) => Some (if captured it then consumed :: gs else gs, (n + k)%nat)
        | None => None
        end in
      match body it with
      | ALit l => if starts_with l s then continue (length l) else None
      | ABoundary => if at_boundary prev (head s) then continue O else None
      | AMany p least =>
          (fix give_back (n : nat) : option (list pystr * nat) :=
             if (n <? least)%nat then None
             else match continue n with
                  | Some m => Some m
                  | None => match n with O => None | S n' => give_back n' end
                  end) (run_length p s)
      | AAlt alts =>
          (fix first_branch (alts : list pystr) : option (list pystr * nat) :=
             match alts with
             | [] => None
             | a :: alts' =>
                 if starts_with a s
                 then match continue (length a) with
                      | Some m => Some m
                      | None => first_branch alts'
                      end
                 else first_branch alts'
             end) alts
      end
  end.

(** The scan behind [re.sub], [re.search] and [re.findall]: leftmost
    matches, not overlapping.  After a match of length [n > 0] the scan
    resumes right behind it; an empty match is followed by the next
    character.  (No pattern of the evaluator matches both the empty string
    and a longer one at the same place.) *)
Fixpoint re_scan (r : regex) (prev : option Z) (skip : nat) (s : pystr) : list piece :=
  match s with
  | [] =>
      match skip with
      | O => match re_match r prev [] with Some (gs, _) => [Hit [] gs] | None => [] end
      | S _ => []
      end
  | c :: s' =>
      match skip with
      | S k => re_scan r (Some c) k s'
      | O =>
          match re_match r prev s with
          | Some (gs, O) => Hit [] gs :: Keep c :: re_scan r (Some c) O s'
          | Some (gs, S n) => Hit (take (S n) s) gs :: re_scan r (Some c) n s'
          | None => Keep c :: re_scan r (Some c) O s'
          end
      end
  end.

Definition hits (ps : list piece) : list (pystr * list pystr) :=
  omap (fun p => match p with Hit w gs => Some (w, gs) | Keep _ => None end) ps.

(** [re.search(r, s)]: the groups of the first match. *)
Definition re_search (r : regex) (s : pystr) : option (pystr * list pystr) :=
  head (hits (re_scan r None O s)).

(** [re.findall(r, s)] for a pattern without groups. *)
Definition re_findall (r : regex) (s : pystr) : list pystr :=
  map fst (hits (re_scan r None O s)).

(** ** Replacement templates

    [re.sub] reads its replacement as a template: a backslash starts an
    escape or a group reference, and a bad one makes [re.sub] raise, whether
    or not the pattern matches. *)
Inductive tpart :=
| TChar (c : Z)
| TGroup (n : nat).

Definition digit_val (c : Z) : Z := c - 48.

Fixpoint digits_value (acc : Z) (s : pystr) : Z :=
  match s with
  | c :: s' => digits_value (acc * 10 + digit_val c) s'
  | [] => acc
  end.

(** [parse_template ngroups s]; [skip] characters were already read as part
    of an escape. *)
Fixpoint parse_template (ngroups : nat) (skip : nat) (s : pystr) : result (list tpart) :=
  match s with
  | [] => Ok []
  | c :: s' =>
      match skip with
      | S k => parse_template ngroups k s'
      | O =>
          if negb (c =? backslash) then ps ← parse_template ngroups O s'; Ok (TChar c :: ps)
          else
            match s' with
            | [] => Raise ReError
            | e :: s'' =>
                let literal (x : Z) := ps ← parse_template ngroups 1 s'; Ok (TChar x :: ps) in
                if e =? 103 (* \g<name> *) then
                  match s'' with
                  | 60 :: after =>
                      let name := take (run_length (fun x => negb (x =? 62)) after) after in
                      if bool_decide (62 ∈ after) && forallb is_ascii_digit name
                         && negb (bool_decide (name = []))
                      then let n := Z.to_nat (digits_value 0 name) in
                           if (n <=? ngroups)%nat
                           then ps ← parse_template ngroups (length name + 3) s';
                                Ok (TGroup n :: ps)
                           else Raise ReError
                      else Raise ReError
                  | _ => Raise ReError
                  end
                else if e =? 48 (* \0 and up to two more octal digits *) then
                  let more := take (run_length is_octal_digit (take 2 s'')) s'' in
                  ps ← parse_template ngroups (1 + length more) s';
                  Ok (TChar (fold_left (fun a d => a * 8 + digit_val d) more 0) :: ps)
                else if is_ascii_digit e then
                  match s'' with
                  | d2 :: rest =>
                      if is_ascii_digit d2 then
                        match rest with
                        | d3 :: _ =>
                            if is_octal_digit e && is_octal_digit d2 && is_octal_digit d3
                            then let c8 := digit_val e * 64 + digit_val d2 * 8 + digit_val d3 in
                                 if 255 <? c8 then Raise ReError
                                 else ps ← parse_template ngroups 3 s'; Ok (TChar c8 :: ps)
                            else let n := Z.to_nat (digit_val e * 10 + digit_val d2) in
                                 if (n <=? ngroups)%nat
                                 then ps ← parse_template ngroups 2 s'; Ok (TGroup n :: ps)
                                 else Raise ReError
                        | [] => let n := Z.to_nat (digit_val e * 10 + digit_val d2) in
                                if (n <=? ngroups)%nat
                                then ps ← parse_template ngroups 2 s'; Ok (TGroup n :: ps)
                                else Raise ReError
                        end
                      else let n := Z.to_nat (digit_val e) in
                           if (n <=? ngroups)%nat
                           then ps ← parse_template ngroups 1 s'; Ok (TGroup n :: ps)
                           else Raise ReError
                  | [] => let n := Z.to_nat (digit_val e) in
                          if (n <=? ngroups)%nat
                          then ps ← parse_template ngroups 1 s'; Ok (TGroup n :: ps)
                          else Raise ReError
                  end
                else if e =? backslash then literal backslash
                else if e =? 97 then literal 7
                else if e =? 98 then literal 8
                else if e =? 102 then literal 12
                else if e =? 110 then literal 10
                else if e =? 114 then literal 13
                else if e =? 116 then literal 9
                else if e =? 118 then literal 11
                else if is_ascii_alpha e then Raise ReError
                else ps ← parse_template ngroups O s'; Ok (TChar c :: ps)
            end
      end
  end.

Definition count_groups (r : regex) : nat := length (filter (fun it => captured it = true) r).

Definition expand (t : list tpart) (whole : pystr) (gs : list pystr) : pystr :=
  concat (map (fun p => match p with
                        | TChar c => [c]
                        | TGroup O => whole
                        | TGroup (S n) => default [] (gs !! n)
                        end) t).

(** [re.sub(r, repl, s)] *)
Definition re_sub (r : regex) (repl : pystr) (s : pystr) : result pystr :=
  t ← parse_template (count_groups r) O repl;
  Ok (concat (map (fun p => match p with
                            | Keep c => [c]
                            | Hit w gs => expand t w gs
                            end) (re_scan r None O s))).

End WithHost.
End Re.
Export Re.

(* ===================================================================== *)
(** * [float(text)]                                                       *)
(* ===================================================================== *)

Module FloatText.
Section WithHost.
Context `{PyHost}.

(** Digits beyond ASCII read as their ASCII digit; any other character
    beyond ASCII makes the text invalid. *)
Definition to_ascii (s : pystr) : option pystr :=
  mapM (fun c => if c <? 127 then Some c
                 else match unicode_digit c with
                      | Some d => Some (48 + d)
                      | None => None
                      end) s.

(** Underscores may stand between two digits only. *)
Fixpoint drop_underscores (prev : option Z) (s : pystr) : option pystr :=
  match s with
  | [] => Some []
  | c :: s' =>
      if c =? 95 then
        match prev, s' with
        | Some p, n :: _ =>
            if is_ascii_digit p && is_ascii_digit n then drop_underscores (Some c) s' else None
        | _, _ => None
        end
      else cons c <$> drop_underscores (Some c) s'
  end.

Definition lower (c : Z) : Z := if in_range 65 90 c then c + 32 else c.

Definition split_digits (s : pystr) : pystr * pystr :=
  let n := run_length is_ascii_digit s in (take n s, drop n s).

(** An unsigned decimal: digits, an optional fraction, an optional exponent. *)
Definition unsigned_decimal (s : pystr) : option float :=
  let '(ip, rest) := split_digits s in
  let '(fp, rest) := match rest with
                     | 46 :: r => split_digits r
                     | _ => ([], rest)
                     end in
  if bool_decide (ip ++ fp = []) then None
  else
    let mant := digits_value 0 (ip ++ fp) in
    let scale := - Z.of_nat (length fp) in
    match rest with
    | [] => Some (float_of_decimal mant scale)
    | e :: r =>
        if (e =? 101) || (e =? 69) then
          let '(neg, ds) := match r with
                            | 45 :: d => (true, d)
                            | 43 :: d => (false, d)
                            | _ => (false, r)
                            end in
          if forallb is_ascii_digit ds && negb (bool_decide (ds = []))
          then let x := digits_value 0 ds in
               Some (float_of_decimal mant (scale + (if neg then - x else x)))
          else None
        else None
    end.

(** [float(s)] for a text without surrounding white space; [None] is the
    [ValueError]. *)
Definition py_float (s : pystr) : option float :=
  s ← to_ascii s;
  s ← drop_underscores None s;
  let '(neg, body) := match s with
                      | 45 :: b => (true, b)
                      | 43 :: b => (false, b)
                      | _ => (false, s)
                      end in
  let word := map lower body in
  x ← (if bool_decide (word = u "inf") || bool_decide (word = u "infinity") then Some infinity
       else if bool_decide (word = u "nan") then Some nan
       else unsigned_decimal body);
  Some (if neg then (- x)%float else x).

End WithHost.
End FloatText.
Export FloatText.

(* ===================================================================== *)
(** * [eagleeye/audit/evaluator.py]: class [LogicEvaluator]               *)
(* ===================================================================== *)

Module Evaluator.

(** A financial record: a Python [dict], its keys in insertion order. *)
Abbreviation pydict := (list (pystr * value)).

(** [d.get(k)] *)
Fixpoint dict_get (d : pydict) (k : pystr) : option value :=
  match d with
  | [] => None
  | (k', v) :: d' => if str_eqb k' k then Some v else dict_get d' k
  end.

(** The [error] text of an outcome: the fixed text of the completeness
    check, or [str(e)] of the exception caught. *)
Inductive error_text :=
| InsufficientData
| Message (e : exn).

(** The dictionary [evaluate] returns.  A key the dictionary lacks reads
    [None] here, as it does through [dict.get]. *)
Record EvaluationOutcome := {
  violation : bool;
  evidence : gmap pystr value;
  calculated_value : option float;
  threshold_value : option float;
  error : option error_text;
  missing_fields : option (gset pystr)
}.

(** The function whitelist. *)
Inductive safe_function := f_abs | f_max | f_min | f_sum | f_len | f_COUNT.

Definition SAFE_FUNCTIONS (name : pystr) : option safe_function :=
  if str_eqb name (u "abs") then Some f_abs
  else if str_eqb name (u "max") then Some f_max
  else if str_eqb name (u "min") then Some f_min
  else if str_eqb name (u "sum") then Some f_sum
  else if str_eqb name (u "len") then Some f_len
  else if str_eqb name (u "COUNT") then Some f_COUNT
  else None.

(** The operator whitelist [SAFE_OPERATORS], by kind of node. *)
Definition safe_binary (op : operator) : bool :=
  match op with
  | Add | Sub | Mult | Div | Mod | Pow => true
  | _ => false
  end.

Definition safe_unary (op : unaryop) : bool :=
  match op with
  | USub | UAdd | Not => true
  | Invert => false
  end.

Section WithHost.
Context `{PyHost}.

(** ** The patterns *)

(** [\b] word [\b] *)
Definition word_pattern (w : pystr) : regex :=
  [plain ABoundary; plain (ALit w); plain ABoundary].

Definition other_than (c : Z) : Z -> bool := fun x => negb (x =? c).

(** [(\w+)\s*包含\s*\[([^\]]+)\]] *)
Definition contains_pattern : regex :=
  [group (AMany is_word 1); plain (AMany is_space 0); plain (ALit (u "包含"));
   plain (AMany is_space 0); plain (ALit (u "[")); group (AMany (other_than 93) 1);
   plain (ALit (u "]"))].

(** [(\w+)\s+in\s+\[([^\]]+)\]] *)
Definition in_list_pattern : regex :=
  [group (AMany is_word 1); plain (AMany is_space 1); plain (ALit (u "in"));
   plain (AMany is_space 1); plain (ALit (u "[")); group (AMany (other_than 93) 1);
   plain (ALit (u "]"))].

(** [COUNT\(([^)]+)\s*(<|>|<=|>=|==)\s*([^)]+)\)] *)
Definition count_pattern : regex :=
  [plain (ALit (u "COUNT(")); group (AMany (other_than 41) 1); plain (AMany is_space 0);
   group (AAlt [u "<"; u ">"; u "<="; u ">="; u "=="]); plain (AMany is_space 0);
   group (AMany (other_than 41) 1); plain (ALit (u ")"))].

(** [COUNT\(([^)]+)\)] *)
Definition simple_count_pattern : regex :=
  [plain (ALit (u "COUNT(")); group (AMany (other_than 41) 1); plain (ALit (u ")"))].

(** [[一-鿿]+] and [[一-鿿_]+] *)
Definition chinese_pattern : regex := [plain (AMany is_cjk 1)].
Definition field_pattern : regex := [plain (AMany (fun c => is_cjk c || (c =? 95)) 1)].

(** [[><=!]+\s*([0-9.]+)] *)
Definition threshold_pattern : regex :=
  [plain (AMany (fun c => (c =? 62) || (c =? 60) || (c =? 61) || (c =? 33)) 1);
   plain (AMany is_space 0);
   group (AMany (fun c => is_ascii_digit c || (c =? 46)) 1)].

(** ** [_preprocess_schema] *)
Definition _preprocess_schema (schema : pystr) : result pystr :=
  processed ← re_sub (word_pattern (u "AND")) (u " and ") schema;
  processed ← re_sub (word_pattern (u "OR")) (u " or ") processed;
  processed ← re_sub (word_pattern (u "NOT")) (u " not ") processed;
  processed ← re_sub contains_pattern (u "any(item in \1 for item in [\2])") processed;
  processed ← re_sub in_list_pattern (u "\1 in [\2]") processed;
  let processed := replace (u "== NULL") (u "is None") processed in
  let processed := replace (u "== None") (u "is None") processed in
  processed ←
    match re_search count_pattern processed with
    | Some (_, gs) =>
        let list_name := strip (default [] (gs !! 0%nat)) in
        let op := default [] (gs !! 1%nat) in
        let value := strip (default [] (gs !! 2%nat)) in
        re_sub count_pattern
          (u "sum(1 for x in " ++ list_name ++ u " if x " ++ op ++ u " " ++ value ++ u ")")
          processed
    | None => Ok processed
    end;
  re_sub simple_count_pattern
    (if contains (u "==") processed then u "len([x for x in \1 if x])" else u "len(\1)")
    processed.

(** ** [_substitute_values] *)

(** [sorted(keys, key=len, reverse=True)]: longest first, and stable. *)
Fixpoint insert_key (k : pystr) (ks : list pystr) : list pystr :=
  match ks with
  | [] => [k]
  | x :: ks' => if (length k <? length x)%nat then x :: insert_key k ks' else k :: ks
  end.

Definition sorted_keys (financial_data : pydict) : list pystr :=
  foldr insert_key [] (map fst financial_data).

(** What the record binds a key to, [None] for an absent key and for an
    explicit null. *)
Definition bound_value (data : pydict) (k : pystr) : option value :=
  match dict_get data k with
  | None | Some VNone => None
  | Some v => Some v
  end.

(** The literal a value is written as. *)
Definition replacement_of (v : value) : Py.result pystr :=
  match v with
  | VBool b => Ok (if b then u "True" else u "False")
  | VStr s => Ok ([dquote] ++ s ++ [dquote])
  | _ => str v
  end.

(** The loop over the sorted keys.  The evidence is recorded before the
    literal of a key is written and substituted, so it is part of what the
    loop leaves behind even when [str] or [re.sub] raises. *)
Fixpoint substitute_keys (financial_data : pydict) (keys : list pystr)
    (result : pystr) (ev : gmap pystr value) : Py.result pystr * gmap pystr value :=
  match keys with
  | [] => (Ok result, ev)
  | key :: keys' =>
      match dict_get financial_data key with
      | None | Some VNone => substitute_keys financial_data keys' result ev
      | Some value =>
          let ev' := <[key := value]> ev in
          match replacement ← replacement_of value;
                re_sub (word_pattern key) replacement result with
          | Ok result' => substitute_keys financial_data keys' result' ev'
          | Raise e => (Raise e, ev')
          end
      end
  end.

Definition _substitute_values (schema : pystr) (financial_data : pydict)
    : Py.result pystr * gmap pystr value :=
  substitute_keys financial_data (sorted_keys financial_data) schema ∅.

(** ** [_has_missing_data]: some ideograph is left, and the quote characters
    of the whole text pair up. *)
Definition _has_missing_data (substituted : pystr) : bool :=
  let matches := re_findall chinese_pattern substituted in
  let in_string :=
    fold_left (fun (st : bool) c => if (c =? dquote) || (c =? squote) then negb st else st)
              substituted false in
  negb (bool_decide (matches = [])) && negb in_string.

(** A quote character, single or double. *)
Definition is_quote (c : Z) : bool := (c =? dquote) || (c =? squote).

(** ** [_get_missing_fields] *)
Definition unbound (financial_data : pydict) (field : pystr) : bool :=
  match dict_get financial_data field with
  | None | Some VNone => true
  | Some _ => false
  end.

Definition _get_missing_fields (schema : pystr) (financial_data : pydict) : gset pystr :=
  list_to_set (filter (fun field => unbound financial_data field = true)
                      (re_findall field_pattern schema)).

(** ** [_simple_eval] *)
Definition float_compare (op : cmpop) (l r : float) : bool :=
  match op with
  | GtE => PrimFloat.leb r l
  | LtE => PrimFloat.leb l r
  | Gt => PrimFloat.ltb r l
  | Lt => PrimFloat.ltb l r
  | Eq => PrimFloat.eqb l r
  | _ => negb (PrimFloat.eqb l r)
  end.

Definition simple_operators : list (pystr * cmpop) :=
  [(u " >= ", GtE); (u " <= ", LtE); (u " > ", Gt); (u " < ", Lt); (u " == ", Eq);
   (u " != ", NotEq)].

Fixpoint simple_loop (expr : pystr) (ops : list (pystr * cmpop)) : bool :=
  match ops with
  | [] => false
  | (op, c) :: ops' =>
      if contains op expr then
        match split_on op expr with
        | [l; r] =>
            match py_float (strip l), py_float (strip r) with
            | Some x, Some y => float_compare c x y
            | _, _ => false
            end
        | _ => simple_loop expr ops'
        end
      else simple_loop expr ops'
  end.

Definition _simple_eval (expression : pystr) : bool :=
  simple_loop (join (u " ") (split_ws expression)) simple_operators.

(** ** [_eval_node] *)

(** Calling the whitelisted function [f] on the evaluated arguments. *)
Definition apply_safe (f : safe_function) (args : list value) : Py.result value :=
  match f, args with
  | f_abs, [x] =>
      match x with
      | VFloat v => Ok (VFloat (PrimFloat.abs v))
      | _ => match as_int x with Some z => Ok (VInt (Z.abs z)) | None => Raise TypeError end
      end
  | f_max, [x] => xs ← py_iter x; extreme Gt xs
  | f_max, _ :: _ :: _ => extreme Gt args
  | f_min, [x] => xs ← py_iter x; extreme Lt xs
  | f_min, _ :: _ :: _ => extreme Lt args
  | f_sum, [x] => xs ← py_iter x; py_sum xs (VInt 0)
  | f_sum, [x; start] => xs ← py_iter x; py_sum xs start
  | f_len, [x] =>
      match x with
      | VStr s => Ok (VInt (Z.of_nat (length s)))
      | VList l | VTuple l => Ok (VInt (Z.of_nat (length l)))
      | _ => Raise TypeError
      end
  | f_COUNT, [x] =>
      match x with
      | VList l | VTuple l => Ok (VInt (Z.of_nat (length (filter (fun item => truthy item = true) l))))
      | _ => Ok (VInt (if truthy x then 1 else 0))
      end
  | _, _ => Raise TypeError
  end.

(** One step of a comparison chain. *)
Definition compare_op (op : cmpop) (left right : value) : Py.result bool :=
  match op with
  | Gt | Lt | GtE | LtE => py_order op left right
  | Eq => Ok (py_eq left right)
  | NotEq => Ok (negb (py_eq left right))
  | In => py_contains left right
  | NotIn => negb <$> py_contains left right
  | Is => Ok (py_is left right)
  | IsNot => Ok (negb (py_is left right))
  end.

(** The recursive walk.  (The interpreter's recursion limit, which a very
    deep tree would hit, is not part of the model.) *)
Fixpoint _eval_node (node : expr) : Py.result value :=
  match node with
  | Constant v => Ok v
  | EList elts => VList <$> map_result _eval_node elts
  | ETuple elts => VTuple <$> map_result _eval_node elts
  | BinOp l op r =>
      left ← _eval_node l;
      right ← _eval_node r;
      if safe_binary op then
        match op with
        | Div => if py_eq right (VInt 0) then Ok (VFloat infinity) else py_binop op left right
        | _ => py_binop op left right
        end
      else Raise (UnsupportedOperator op)
  | UnaryOp op e =>
      operand ← _eval_node e;
      if safe_unary op then py_unary op operand else Raise (UnsupportedUnaryOperator op)
  | Compare l ops comparators =>
      left ← _eval_node l;
      (fix chain (comparators : list expr) (ops : list cmpop) (left : value)
         : Py.result value :=
         match comparators, ops with
         | comparator :: comparators', op :: ops' =>
             right ← _eval_node comparator;
             holds ← compare_op op left right;
             if (holds : bool) then chain comparators' ops' right else Ok (VBool false)
         | _, _ => Ok (VBool true)
         end) comparators ops left
  | BoolOp And values =>
      (fix all_of (values : list expr) : Py.result value :=
         match values with
         | [] => Ok (VBool true)
         | v :: values' => x ← _eval_node v; if truthy x then all_of values' else Ok (VBool false)
         end) values
  | BoolOp Or values =>
      (fix any_of (values : list expr) : Py.result value :=
         match values with
         | [] => Ok (VBool false)
         | v :: values' => x ← _eval_node v; if truthy x then Ok (VBool true) else any_of values'
         end) values
  | Call func args =>
      let func_name := match func with Name id => Some id | _ => None end in
      match func_name ≫= SAFE_FUNCTIONS with
      | Some f => args ← map_result _eval_node args; apply_safe f args
      | None => Raise (UnsupportedFunction func_name)
      end
  | Name id =>
      if str_eqb id (u "True") then Ok (VBool true)
      else if str_eqb id (u "False") then Ok (VBool false)
      else if str_eqb id (u "None") then Ok VNone
      else Raise (UnknownName id)
  | IfExp test body orelse =>
      t ← _eval_node test;
      if truthy t then _eval_node body else _eval_node orelse
  | GeneratorExp elt target iter ifs more =>
      iter_val ← _eval_node iter;
      items ← py_iter iter_val;
      (* [ifs] is looked at and nothing is skipped; [item] is not bound *)
      VList <$> map_result (fun _ => _eval_node elt) items
  | OtherNode kind => Raise (UnsupportedNode kind)
  end.

(** The comparison chain of [_eval_node], from the value of the left
    operand on. *)
Fixpoint compare_chain (comparators : list expr) (ops : list cmpop) (left : value)
    : Py.result value :=
  match comparators, ops with
  | comparator :: comparators', op :: ops' =>
      right ← _eval_node comparator;
      holds ← compare_op op left right;
      if (holds : bool) then compare_chain comparators' ops' right else Ok (VBool false)
  | _, _ => Ok (VBool true)
  end.

(** ** [_safe_eval] *)
Definition _safe_eval (expression : pystr) : Py.result value :=
  match ast_parse expression with
  | Parsed body => _eval_node body
  | SyntaxError => Ok (VBool (_simple_eval expression))
  | ParseRaises e => Raise e
  end.

(** ** [_extract_calculated_value] and [_extract_threshold_value] *)

(** The loop over the operators: [except Exception: pass] goes on to the
    next operator, and what [eval] raises that is no [Exception] leaves the
    loop, and the evaluator, uncaught. *)
Fixpoint calculated_loop (expression : pystr) (ops : list pystr) : completion (option float) :=
  match ops with
  | [] => Returns None
  | op :: ops' =>
      if contains op expression then
        let left_side := strip (default [] (head (split_on op expression))) in
        attempt ← builtin_eval_float
                    [(u "expression", VStr expression); (u "op", VStr op);
                     (u "left_side", VStr left_side)] left_side;
        match attempt with
        | Ok x => Returns (Some x)
        | Raise _ => calculated_loop expression ops'
        end
      else calculated_loop expression ops'
  end.

Definition _extract_calculated_value (expression : pystr) : completion (option float) :=
  calculated_loop expression [u " > "; u " < "; u " >= "; u " <= "; u " == "].

Definition _extract_threshold_value (expression : pystr) : option float :=
  match re_search threshold_pattern expression with
  | Some (_, gs) => py_float (default [] (gs !! 0%nat))
  | None => None
  end.

(** ** [evaluate] *)

(** The [except Exception as e] branch. *)
Definition failed (ev : gmap pystr value) (e : exn) : EvaluationOutcome :=
  {| violation := false; evidence := ev; calculated_value := None;
     threshold_value := None; error := Some (Message e); missing_fields := None |}.

(** The entries of the dictionary returned after an evaluation are
    computed in the order written: [calculated_value] after [violation]
    and [evidence]. *)
Definition evaluate (logic_schema : pystr) (financial_data : pydict)
    : completion EvaluationOutcome :=
  match _preprocess_schema logic_schema with
  | Raise e => Returns (failed ∅ e)
  | Ok processed =>
      match _substitute_values processed financial_data with
      | (Raise e, ev) => Returns (failed ev e)
      | (Ok substituted, ev) =>
          if _has_missing_data substituted then
            Returns
              {| violation := false; evidence := ev; calculated_value := None;
                 threshold_value := None; error := Some InsufficientData;
                 missing_fields := Some (_get_missing_fields processed financial_data) |}
          else
            match _safe_eval substituted with
            | Raise e => Returns (failed ev e)
            | Ok result =>
                calculated ← _extract_calculated_value substituted;
                Returns
                  {| violation := truthy result; evidence := ev;
                     calculated_value := calculated;
                     threshold_value := _extract_threshold_value logic_schema;
                     error := None; missing_fields := None |}
            end
      end
  end.

End WithHost.
End Evaluator.
Export Evaluator.

(* ===================================================================== *)
(** * A reference host for the worked examples                            *)
(* ===================================================================== *)

Module Reference.

(** An implementation of [PyHost] on a fragment of Python: decimal
    numbers, quoted strings without escapes, names in ASCII and CJK
    ideographs, the arithmetic, comparison and boolean operators, the
    conditional expression, calls, lists, tuples and comprehensions.  On a
    text of the fragment [parse] builds the tree [ast.parse] builds, and
    it answers [SyntaxError] where the text does not parse.  A text that
    uses Python beyond the fragment (attributes, subscripts, lambdas,
    escapes, digit separators, line breaks, comments, ...) is answered
    with [SyntaxError] too: the examples stay inside the fragment. *)

Inductive token :=
| TNum (v : value)
| TStr (s : pystr)
| TName (s : pystr)
| TSym (s : pystr).      (* an operator, a bracket or a keyword *)

Definition keywords : list pystr :=
  [u "and"; u "or"; u "not"; u "in"; u "is"; u "if"; u "else"; u "for"].

Definition is_ident_start (c : Z) : bool := is_ascii_alpha c || (c =? 95) || is_cjk c.
Definition is_ident_char (c : Z) : bool := is_ident_start c || is_ascii_digit c.

Definition symbols2 : list pystr := [u "**"; u "//"; u "<="; u ">="; u "=="; u "!="].
Definition symbols1 : pystr := u "+-*/%()[],<>~".

(** A number at the start of [s]: its value and its length. *)
Definition lex_number (s : pystr) : option (value * nat) :=
  let ip := take (run_length is_ascii_digit s) s in
  let r1 := drop (length ip) s in
  let '(dot, fp) := match r1 with
                    | 46 :: r => (true, take (run_length is_ascii_digit r) r)
                    | _ => (false, [])
                    end in
  let r2 := drop (if dot then S (length fp) else O) r1 in
  let ex : option (option (Z * nat)) :=
    match r2 with
    | e :: r =>
        if (e =? 101) || (e =? 69) then
          let '(neg, sl, d) := match r with
                               | 45 :: d => (true, 1%nat, d)
                               | 43 :: d => (false, 1%nat, d)
                               | _ => (false, O, r)
                               end in
          let ds := take (run_length is_ascii_digit d) d in
          if bool_decide (ds = []) then None
          else Some (Some ((if neg then - digits_value 0 ds else digits_value 0 ds),
                           S (sl + length ds)))
        else Some None
    | [] => Some None
    end in
  match ex with
  | None => None
  | Some ex =>
      if bool_decide (ip ++ fp = []) then None
      else
        let len := (length ip + (if dot then S (length fp) else O)
                    + match ex with Some (_, n) => n | None => O end)%nat in
        if is_ident_start (default 0 (s !! len)) then None
        else if dot || bool_decide (ex <> None) then
          Some (VFloat (float_of_decimal (digits_value 0 (ip ++ fp))
                          (match ex with Some (x, _) => x | None => 0 end
                           - Z.of_nat (length fp))), len)
        else if (1 <? length ip)%nat && bool_decide (head ip = Some 48)
                && negb (forallb (Z.eqb 48) ip)
        then None
        else Some (VInt (digits_value 0 ip), len)
  end.

(** A quoted string at the start of [s] (after the quote [q]): its text. *)
Definition lex_string (q : Z) (s : pystr) : option pystr :=
  let body := take (run_length (other_than q) s) s in
  if bool_decide (q ∈ s) && negb (bool_decide (backslash ∈ body))
     && negb (bool_decide (10 ∈ body)) && negb (bool_decide (13 ∈ body))
  then Some body else None.

Fixpoint lex (fuel : nat) (s : pystr) : option (list token) :=
  match fuel with
  | O => None
  | S fuel' =>
      match s with
      | [] => Some []
      | c :: s' =>
          if (c =? 32) || (c =? 9) || (c =? 12) then lex fuel' s'
          else if is_ascii_digit c || ((c =? 46) && is_ascii_digit (default 0 (head s'))) then
            '(v, n) ← lex_number s; cons (TNum v) <$> lex fuel' (drop n s)
          else if (c =? dquote) || (c =? squote) then
            if starts_with [c; c] s' then None
            else body ← lex_string c s';
                 cons (TStr body) <$> lex fuel' (drop (S (length body)) s')
          else if is_ident_start c then
            let w := take (run_length is_ident_char s) s in
            cons (if bool_decide (w ∈ keywords) then TSym w else TName w)
              <$> lex fuel' (drop (length w) s)
          else if bool_decide (take 2 s ∈ symbols2) then
            cons (TSym (take 2 s)) <$> lex fuel' (drop 1 s')
          else if bool_decide (c ∈ symbols1) then cons (TSym [c]) <$> lex fuel' s'
          else None
      end
  end.

Definition sym (t : token) (w : string) : bool :=
  match t with TSym s => str_eqb s (u w) | _ => false end.

Definition constant_of_name (w : pystr) : expr :=
  if str_eqb w (u "True") then Constant (VBool true)
  else if str_eqb w (u "False") then Constant (VBool false)
  else if str_eqb w (u "None") then Constant VNone
  else Name w.

Definition binary_of (t : token) (level : nat) : option operator :=
  match level with
  | O => if sym t "+" then Some Add else if sym t "-" then Some Sub else None
  | _ => if sym t "*" then Some Mult else if sym t "/" then Some Div
         else if sym t "%" then Some Mod else if sym t "//" then Some FloorDiv else None
  end.

(** A comparison operator at the start of the tokens, and what follows it. *)
Definition comparison_of (ts : list token) : option (cmpop * list token) :=
  match ts with
  | t :: ts' =>
      if sym t "<" then Some (Lt, ts') else if sym t ">" then Some (Gt, ts')
      else if sym t "<=" then Some (LtE, ts') else if sym t ">=" then Some (GtE, ts')
      else if sym t "==" then Some (Eq, ts') else if sym t "!=" then Some (NotEq, ts')
      else if sym t "in" then Some (In, ts')
      else if sym t "is" then
        match ts' with
        | t2 :: ts'' => if sym t2 "not" then Some (IsNot, ts'') else Some (Is, ts')
        | [] => Some (Is, ts')
        end
      else if sym t "not" then
        match ts' with
        | t2 :: ts'' => if sym t2 "in" then Some (NotIn, ts'') else None
        | [] => None
        end
      else None
  | [] => None
  end.

Abbreviation parser A := (list token -> option (A * list token)).

(** Adjacent string literals are one constant. *)
Fixpoint p_strings (acc : pystr) (ts : list token) : expr * list token :=
  match ts with
  | TStr s :: ts1 => p_strings (acc ++ s) ts1
  | _ => (Constant (VStr acc), ts)
  end.

(** Recursive descent along Python's expression grammar. *)
Fixpoint p_test (fuel : nat) : parser expr :=
  fun ts =>
  match fuel with
  | O => None
  | S n =>
      '(body, ts) ← p_or n ts;
      match ts with
      | t :: ts1 =>
          if sym t "if" then
            '(test, ts2) ← p_or n ts1;
            match ts2 with
            | t2 :: ts3 =>
                if sym t2 "else" then '(orelse, ts4) ← p_test n ts3; Some (IfExp test body orelse, ts4)
                else None
            | [] => None
            end
          else Some (body, ts)
      | [] => Some (body, ts)
      end
  end
with p_or (fuel : nat) : parser expr :=
  fun ts =>
  match fuel with
  | O => None
  | S n =>
      '(first, ts) ← p_and n ts;
      '(more, ts) ← p_bool_rest n "or" ts;
      Some (match more with [] => first | _ => BoolOp Or (first :: more) end, ts)
  end
with p_and (fuel : nat) : parser expr :=
  fun ts =>
  match fuel with
  | O => None
  | S n =>
      '(first, ts) ← p_not n ts;
      '(more, ts) ← p_bool_rest n "and" ts;
      Some (match more with [] => first | _ => BoolOp And (first :: more) end, ts)
  end
with p_bool_rest (fuel : nat) (w : string) : parser (list expr) :=
  fun ts =>
  match fuel with
  | O => None
  | S n =>
      match ts with
      | t :: ts1 =>
          if sym t w then
            '(x, ts2) ← (if String.eqb w "or" then p_and n ts1 else p_not n ts1);
            '(xs, ts3) ← p_bool_rest n w ts2;
            Some (x :: xs, ts3)
          else Some ([], ts)
      | [] => Some ([], ts)
      end
  end
with p_not (fuel : nat) : parser expr :=
  fun ts =>
  match fuel with
  | O => None
  | S n =>
      match ts with
      | t :: ts1 =>
          if sym t "not" then '(x, ts2) ← p_not n ts1; Some (UnaryOp Not x, ts2)
          else p_comparison n ts
      | [] => None
      end
  end
with p_comparison (fuel : nat) : parser expr :=
  fun ts =>
  match fuel with
  | O => None
  | S n =>
      '(lhs, ts) ← p_sum n O ts;
      '(rest, ts) ← p_comparison_rest n ts;
      Some (match rest with [] => lhs | _ => Compare lhs (map fst rest) (map snd rest) end, ts)
  end
with p_comparison_rest (fuel : nat) : parser (list (cmpop * expr)) :=
  fun ts =>
  match fuel with
  | O => None
  | S n =>
      match comparison_of ts with
      | Some (op, ts1) =>
          '(x, ts2) ← p_sum n O ts1;
          '(more, ts3) ← p_comparison_rest n ts2;
          Some ((op, x) :: more, ts3)
      | None => Some ([], ts)
      end
  end
with p_sum (fuel : nat) (level : nat) : parser expr :=
  (* level 0: sums of terms; level 1: products of factors *)
  fun ts =>
  match fuel with
  | O => None
  | S n =>
      '(first, ts) ← (match level with O => p_sum n 1%nat ts | _ => p_factor n ts end);
      p_sum_rest n level first ts
  end
with p_sum_rest (fuel : nat) (level : nat) (lhs : expr) : parser expr :=
  fun ts =>
  match fuel with
  | O => None
  | S n =>
      match ts with
      | t :: ts1 =>
          match binary_of t level with
          | Some op =>
              '(rhs, ts2) ← (match level with O => p_sum n 1%nat ts1 | _ => p_factor n ts1 end);
              p_sum_rest n level (BinOp lhs op rhs) ts2
          | None => Some (lhs, ts)
          end
      | [] => Some (lhs, ts)
      end
  end
with p_factor (fuel : nat) : parser expr :=
  fun ts =>
  match fuel with
  | O => None
  | S n =>
      match ts with
      | t :: ts1 =>
          if sym t "-" then '(x, ts2) ← p_factor n ts1; Some (UnaryOp USub x, ts2)
          else if sym t "+" then '(x, ts2) ← p_factor n ts1; Some (UnaryOp UAdd x, ts2)
          else if sym t "~" then '(x, ts2) ← p_factor n ts1; Some (UnaryOp Invert x, ts2)
          else
            '(base, ts2) ← p_atom n ts;
            '(base, ts2) ← p_calls n base ts2;
            match ts2 with
            | t2 :: ts3 =>
                if sym t2 "**" then '(e, ts4) ← p_factor n ts3; Some (BinOp base Pow e, ts4)
                else Some (base, ts2)
            | [] => Some (base, ts2)
            end
      | [] => None
      end
  end
with p_calls (fuel : nat) (func : expr) : parser expr :=
  fun ts =>
  match fuel with
  | O => None
  | S n =>
      match ts with
      | t :: ts1 =>
          if sym t "(" then
            '(args, ts2) ← p_elements n ")" ts1;
            p_calls n (match args with
                       | inl xs => Call func xs
                       | inr g => Call func [g]
                       end) ts2
          else Some (func, ts)
      | [] => Some (func, ts)
      end
  end
with p_atom (fuel : nat) : parser expr :=
  fun ts =>
  match fuel with
  | O => None
  | S n =>
      match ts with
      | TNum v :: ts1 => Some (Constant v, ts1)
      | TStr s :: ts1 => Some (p_strings s ts1)
      | TName w :: ts1 => Some (constant_of_name w, ts1)
      | TSym s :: ts1 =>
          if str_eqb s (u "(") then
            match ts1 with
            | t :: ts2 =>
                if sym t ")" then Some (ETuple [], ts2)
                else
                  '(first, ts3) ← p_test n ts1;
                  match ts3 with
                  | t3 :: ts4 =>
                      if sym t3 ")" then Some (first, ts4)
                      else if sym t3 "for" then
                        '(g, ts5) ← p_comprehension n first ts4;
                        match ts5 with
                        | t5 :: ts6 => if sym t5 ")" then Some (g, ts6) else None
                        | [] => None
                        end
                      else if sym t3 "," then
                        '(more, ts5) ← p_elements n ")" ts4;
                        match more with
                        | inl xs => Some (ETuple (first :: xs), ts5)
                        | inr _ => None
                        end
                      else None
                  | [] => None
                  end
            | [] => None
            end
          else if str_eqb s (u "[") then
            '(elts, ts2) ← p_elements n "]" ts1;
            Some (match elts with
                  | inl xs => EList xs
                  | inr _ => OtherNode (u "ListComp")
                  end, ts2)
          else None
      | [] => None
      end
  end
with p_elements (fuel : nat) (close : string) : parser (list expr + expr) :=
  (* after the opening bracket: the elements up to [close], or one
     comprehension *)
  fun ts =>
  match fuel with
  | O => None
  | S n =>
      match ts with
      | t :: ts1 =>
          if sym t close then Some (inl [], ts1)
          else
            '(x, ts2) ← p_test n ts;
            match ts2 with
            | t2 :: ts3 =>
                if sym t2 close then Some (inl [x], ts3)
                else if sym t2 "," then
                  '(more, ts4) ← p_elements n close ts3;
                  match more with
                  | inl xs => Some (inl (x :: xs), ts4)
                  | inr _ => None
                  end
                else if sym t2 "for" then
                  '(g, ts4) ← p_comprehension n x ts3;
                  match ts4 with
                  | t4 :: ts5 => if sym t4 close then Some (inr g, ts5) else None
                  | [] => None
                  end
                else None
            | [] => None
            end
      | [] => None
      end
  end
with p_comprehension (fuel : nat) (elt : expr) : parser expr :=
  (* after [for]: a name, [in], the iterable, and the [if] clauses *)
  fun ts =>
  match fuel with
  | O => None
  | S n =>
      match ts with
      | TName x :: t :: ts1 =>
          if sym t "in" then
            '(iter, ts2) ← p_or n ts1;
            '(ifs, ts3) ← p_ifs n ts2;
            Some (GeneratorExp elt (Name x) iter ifs [], ts3)
          else None
      | _ => None
      end
  end
with p_ifs (fuel : nat) : parser (list expr) :=
  fun ts =>
  match fuel with
  | O => None
  | S n =>
      match ts with
      | t :: ts1 =>
          if sym t "if" then
            '(c, ts2) ← p_or n ts1; '(cs, ts3) ← p_ifs n ts2; Some (c :: cs, ts3)
          else Some ([], ts)
      | [] => Some ([], ts)
      end
  end.

(** [ast.parse(text, mode='eval')] on the fragment.  A text that starts
    with a blank is an [IndentationError], a [SyntaxError]. *)
Definition parse (text : pystr) : parse_result :=
  match text with
  | c :: _ =>
      if (c =? 32) || (c =? 9) then SyntaxError
      else match lex (S (length text)) text with
           | Some ts =>
               match p_test (20 * (length ts + 2)) ts with
               | Some (e, []) => Parsed e
               | _ => SyntaxError
               end
           | None => SyntaxError
           end
  | [] => SyntaxError
  end.


(** ** The other fields of the host *)

Definition small_int (v : value) : option Z :=
  match v with
  | VInt z => if in_range (-5) 256 z then Some z else None
  | _ => None
  end.

(** Without [eval]: enough to run the operators.  Of the arithmetic left
    to the host it knows the floor division of integers; it knows no
    letters and digits beyond ASCII, the CJK ideographs and two blocks of
    digits; of object identity it knows CPython's cache of small integers;
    it writes integers of up to 4300 digits. *)
Definition base_host : PyHost := {|
  ast_parse := parse;
  builtin_eval_float := fun _ _ => Returns (Raise (OtherException (u "NotModelled")));
  int_max_str_digits := 4300;
  host_arith := fun op a b =>
    match op, as_int a, as_int b with
    | FloorDiv, Some x, Some y =>
        if y =? 0 then Raise ZeroDivisionError else Ok (VInt (x / y))
    | _, _, _ => Raise (OtherException (u "NotModelled"))
    end;
  host_is := fun a b =>
    match small_int a, small_int b with
    | Some x, Some y => x =? y
    | _, _ => false
    end;
  unicode_alnum := fun _ => false;
  unicode_printable := fun c => 160 <? c;
  unicode_digit := fun c =>
    if in_range 65296 65305 c then Some (c - 65296)
    else if in_range 1632 1641 c then Some (c - 1632)
    else None
|}.

(** How the evaluation of an expression by Python itself ends: a value,
    an [Exception], or what is raised and is none. *)
Inductive ran (A : Type) :=
| Done (a : A)
| Raised (e : exn)
| Uncaught (b : base_exn).
Arguments Done {A} a.
Arguments Raised {A} e.
Arguments Uncaught {A} b.

#[local] Instance ran_ret : MRet ran := fun A a => Done a.
#[local] Instance ran_bind : MBind ran := fun A B k c =>
  match c with
  | Done a => k a
  | Raised e => Raised e
  | Uncaught b => Uncaught b
  end.

Definition lift {A} (c : result A) : ran A :=
  match c with
  | Ok a => Done a
  | Raise e => Raised e
  end.

Definition map_ran {A B} (f : A -> ran B) : list A -> ran (list B) :=
  fix go (xs : list A) : ran (list B) :=
    match xs with
    | [] => Done []
    | x :: xs' => y ← f x; ys ← go xs'; Done (y :: ys)
    end.

(** The built-in functions the fragment knows by name; [sum], [max] and
    [min] run a generator handed to them; [exit] and [quit] are the ones
    [site] defines. *)
Definition pure_builtins : list pystr := [u "abs"; u "max"; u "min"; u "sum"; u "len"].
Definition consumers : list pystr := [u "max"; u "min"; u "sum"].
Definition exit_builtins : list pystr := [u "exit"; u "quit"].

(** What Python itself computes for a tree of the fragment: the
    operators unguarded, [and]/[or] answering an operand, a call looking
    its function up before it evaluates the arguments, [exit] and [quit]
    raising [SystemExit].  A generator expression binds its variable and
    applies its filters; it is run where it is the one argument of [sum],
    [max] or [min], and is outside the fragment elsewhere. *)
Fixpoint py_eval (env : list (pystr * value)) (node : expr) : ran value :=
  let H := base_host in
  match node with
  | Constant v => Done v
  | EList elts => vs ← map_ran (py_eval env) elts; Done (VList vs)
  | ETuple elts => vs ← map_ran (py_eval env) elts; Done (VTuple vs)
  | BinOp l op r => a ← py_eval env l; b ← py_eval env r; lift (py_binop op a b)
  | UnaryOp op e => a ← py_eval env e; lift (py_unary op a)
  | Compare l ops comparators =>
      a ← py_eval env l;
      (fix chain (comparators : list expr) (ops : list cmpop) (a : value) : ran value :=
         match comparators, ops with
         | c :: comparators', op :: ops' =>
             b ← py_eval env c;
             holds ← lift (compare_op op a b);
             if (holds : bool) then chain comparators' ops' b else Done (VBool false)
         | _, _ => Done (VBool true)
         end) comparators ops a
  | BoolOp op values =>
      (fix go (values : list expr) (last : value) : ran value :=
         match values with
         | [] => Done last
         | v :: values' =>
             x ← py_eval env v;
             if xorb (truthy x) (match op with And => true | Or => false end)
             then Done x else go values' x
         end) values (VBool (match op with And => true | Or => false end))
  | Call (Name f) args =>
      match dict_get env f with
      | Some _ =>
          (* a local variable: a text, which cannot be called *)
          _ ← map_ran (py_eval env) args; Raised TypeError
      | None =>
          if bool_decide (f ∈ pure_builtins) then
            vs ← match args with
                 | [GeneratorExp elt (Name x) iter ifs []] =>
                     if bool_decide (f ∈ consumers) then
                       iter_val ← py_eval env iter;
                       items ← lift (py_iter iter_val);
                       picked ← map_ran
                         (fun item =>
                            let env' := (x, item) :: env in
                            keep ← (fix all_of (ifs : list expr) : ran bool :=
                                      match ifs with
                                      | [] => Done true
                                      | c :: ifs' =>
                                          v ← py_eval env' c;
                                          if truthy v then all_of ifs' else Done false
                                      end) ifs;
                            if (keep : bool) then v ← py_eval env' elt; Done [v] else Done [])
                         items;
                       Done [VList (concat picked)]
                     else Raised (OtherException (u "NotModelled"))
                 | _ => map_ran (py_eval env) args
                 end;
            match SAFE_FUNCTIONS f with
            | Some g => lift (apply_safe g vs)
            | None => Raised TypeError
            end
          else if bool_decide (f ∈ exit_builtins) then
            vs ← map_ran (py_eval env) args;
            match vs with
            | [] | [_] => Uncaught SystemExit
            | _ => Raised TypeError
            end
          else Raised (OtherException (u "NameError"))
      end
  | Call _ _ => Raised (OtherException (u "NotModelled"))
  | Name id =>
      match dict_get env id with
      | Some v => Done v
      | None => Raised (OtherException (u "NameError"))
      end
  | IfExp test body orelse =>
      t ← py_eval env test;
      if truthy t then py_eval env body else py_eval env orelse
  | _ => Raised (OtherException (u "NotModelled"))
  end.

(** [float(v)] *)
Definition float_of_value (v : value) : result float :=
  let H := base_host in
  match v with
  | VFloat f => Ok f
  | VStr s => match py_float (strip s) with Some f => Ok f | None => Raise ValueError end
  | _ => match as_int v with
         | Some z => int_to_float z
         | None => Raise TypeError
         end
  end.

Definition eval_float (locals : list (pystr * value)) (text : pystr)
    : completion (result float) :=
  match parse (lstrip text) with
  | Parsed e =>
      match py_eval locals e with
      | Done v => Returns (float_of_value v)
      | Raised e => Returns (Raise e)
      | Uncaught b => Escapes b
      end
  | _ => Returns (Raise (OtherException (u "SyntaxError")))
  end.

Definition host : PyHost := {|
  ast_parse := parse;
  builtin_eval_float := eval_float;
  int_max_str_digits := @int_max_str_digits base_host;
  host_arith := @host_arith base_host;
  host_is := @host_is base_host;
  unicode_alnum := @unicode_alnum base_host;
  unicode_printable := @unicode_printable base_host;
  unicode_digit := @unicode_digit base_host
|}.

End Reference.

(* ===================================================================== *)
(** * [eagleeye/models/finding.py]: [Finding] and [AuditReport]           *)
(* ===================================================================== *)

Module Report.

Inductive ViolationSeverity := CRITICAL | HIGH | MEDIUM | LOW.

(** The wall-clock stamps of the two models ([detected_at],
    [audit_timestamp], [execution_time_seconds]) are left out: no two runs
    agree on them, and no property below reads them. *)
Record Finding := {
  rule_id : pystr;
  rule_subject : pystr;
  category : pystr;
  severity : ViolationSeverity;
  logic_schema : pystr;
  evaluation_result : bool;
  evidence : gmap pystr value;
  calculated_value : option float;
  threshold_value : option float;
  description : pystr;
  recommendation : pystr;
  audit_procedures : list pystr
}.

Record AuditReport := {
  document_name : pystr;
  document_path : pystr;
  total_rules_checked : Z;
  total_violations : Z;
  findings : list Finding;
  critical_count : Z;
  high_count : Z;
  medium_count : Z;
  low_count : Z;
  category_summary : gmap pystr Z
}.

(** [AuditReport(document_name=..., document_path=..., total_rules_checked=...)]:
    every other field at its default. *)
Definition new_report (name path : pystr) (checked : Z) : AuditReport :=
  {| document_name := name; document_path := path; total_rules_checked := checked;
     total_violations := 0; findings := []; critical_count := 0; high_count := 0;
     medium_count := 0; low_count := 0; category_summary := ∅ |}.

(** The statements of [add_finding], in order.  None of them can raise. *)
Definition append_finding (self : AuditReport) (finding : Finding) : AuditReport :=
  {| document_name := document_name self; document_path := document_path self;
     total_rules_checked := total_rules_checked self;
     total_violations := total_violations self;
     findings := findings self ++ [finding];
     critical_count := critical_count self; high_count := high_count self;
     medium_count := medium_count self; low_count := low_count self;
     category_summary := category_summary self |}.

Definition count_violation (self : AuditReport) : AuditReport :=
  {| document_name := document_name self; document_path := document_path self;
     total_rules_checked := total_rules_checked self;
     total_violations := total_violations self + 1;
     findings := findings self;
     critical_count := critical_count self; high_count := high_count self;
     medium_count := medium_count self; low_count := low_count self;
     category_summary := category_summary self |}.

Definition count_severity (self : AuditReport) (s : ViolationSeverity) : AuditReport :=
  {| document_name := document_name self; document_path := document_path self;
     total_rules_checked := total_rules_checked self;
     total_violations := total_violations self;
     findings := findings self;
     critical_count := critical_count self + (match s with CRITICAL => 1 | _ => 0 end);
     high_count := high_count self + (match s with HIGH => 1 | _ => 0 end);
     medium_count := medium_count self + (match s with MEDIUM => 1 | _ => 0 end);
     low_count := low_count self + (match s with LOW => 1 | _ => 0 end);
     category_summary := category_summary self |}.

Definition count_category (self : AuditReport) (c : pystr) : AuditReport :=
  {| document_name := document_name self; document_path := document_path self;
     total_rules_checked := total_rules_checked self;
     total_violations := total_violations self;
     findings := findings self;
     critical_count := critical_count self; high_count := high_count self;
     medium_count := medium_count self; low_count := low_count self;
     category_summary :=
       <[c := default 0 (category_summary self !! c) + 1]> (category_summary self) |}.

(** [AuditReport.add_finding] *)
Definition add_finding (self : AuditReport) (finding : Finding) : AuditReport :=
  let self := append_finding self finding in
  let self := count_violation self in
  let self := count_severity self (severity finding) in
  count_category self (category finding).

(** [AuditReporter.create_report] ([eagleeye/audit/reporter.py]) *)
Definition create_report (name path : pystr) (fs : list Finding) (checked : Z) : AuditReport :=
  fold_left add_finding fs (new_report name path checked).

(** The accumulator invariant. *)
Definition counts_agree (r : AuditReport) : Prop :=
  total_violations r = Z.of_nat (length (findings r))
  /\ critical_count r + high_count r + medium_count r + low_count r = total_violations r.

End Report.

(* ===================================================================== *)
(** * [eagleeye/models/rule.py] and [RuleIndexer.load_rules_from_jsonl]   *)
(* ===================================================================== *)

Module RuleSource.

(** What [json.loads] returns. *)
Inductive json :=
| JNull
| JBool (b : bool)
| JInt (z : Z)
| JFloat (f : float)
| JStr (s : pystr)
| JArr (items : list json)
| JObj (members : list (pystr * json)).

Record Rule := {
  rule_id : pystr;
  category : pystr;
  subject : pystr;
  trigger_keywords : list pystr;
  logic_schema : pystr;
  priority : pystr;
  description : pystr;
  source : pystr;
  linked_models : list pystr;
  audit_procedures : list pystr
}.

(** A key of a JSON object; of two members with one name the later counts. *)
Definition member (o : list (pystr * json)) (k : pystr) : option json :=
  snd <$> last (filter (fun kv => fst kv = k) o).

(** The validation pydantic runs in [Rule( **data )]: the six required
    fields are strings, the optional ones strings or lists of strings;
    other keys are ignored. *)
Definition required_str (o : list (pystr * json)) (k : string) : result pystr :=
  match member o (u k) with
  | Some (JStr s) => Ok s
  | _ => Raise ValidationError
  end.

Definition optional_str (o : list (pystr * json)) (k : string) (d : pystr) : result pystr :=
  match member o (u k) with
  | None => Ok d
  | Some (JStr s) => Ok s
  | Some _ => Raise ValidationError
  end.

Definition optional_strs (o : list (pystr * json)) (k : string) : result (list pystr) :=
  match member o (u k) with
  | None => Ok []
  | Some (JArr xs) =>
      map_result (fun x => match x with JStr s => Ok s | _ => Raise ValidationError end) xs
  | Some _ => Raise ValidationError
  end.

Definition validate (o : list (pystr * json)) : result Rule :=
  rule_id ← required_str o "rule_id";
  category ← required_str o "category";
  subject ← required_str o "subject";
  trigger_keywords ← optional_strs o "trigger_keywords";
  logic_schema ← required_str o "logic_schema";
  priority ← required_str o "priority";
  description ← required_str o "description";
  source ← optional_str o "source" [];
  linked_models ← optional_strs o "linked_models";
  audit_procedures ← optional_strs o "audit_procedures";
  Ok {| rule_id := rule_id; category := category; subject := subject;
        trigger_keywords := trigger_keywords; logic_schema := logic_schema;
        priority := priority; description := description; source := source;
        linked_models := linked_models; audit_procedures := audit_procedures |}.

Section WithJson.
(** [json.loads]: a value, or a [JSONDecodeError]. *)
Variable json_loads : pystr -> result json.

(** [try: ... except (json.JSONDecodeError, ValueError): return None] *)
Definition catch_value_error {A} (c : result A) : result (option A) :=
  match c with
  | Ok a => Ok (Some a)
  | Raise e => if is_ValueError e then Ok None else Raise e
  end.

(** [Rule.from_jsonl_line].  [cls( **data )] unpacks [data] as keyword
    arguments: a value that is not a mapping is a [TypeError]. *)
Definition from_jsonl_line (line : pystr) : result (option Rule) :=
  catch_value_error
    (data ← json_loads (strip line);
     match data with
     | JObj o => validate o
     | _ => Raise TypeError
     end).

(** [RuleIndexer.load_rules_from_jsonl], from the lines of the file on: the
    rules loaded and the numbers of the lines warned about. *)
Fixpoint load_lines (line_num : Z) (lines : list pystr) : result (list Rule * list Z) :=
  match lines with
  | [] => Ok ([], [])
  | line :: rest =>
      let line := strip line in
      if bool_decide (line = []) then load_lines (line_num + 1) rest
      else
        rule ← from_jsonl_line line;
        '(rules, warned) ← load_lines (line_num + 1) rest;
        Ok (match rule with
            | Some r => (r :: rules, warned)
            | None => (rules, line_num :: warned)
            end)
  end.

Definition load_rules_from_jsonl (lines : list pystr) : result (list Rule) :=
  fst <$> load_lines 1 lines.

End WithJson.

(** ** A reader for a fragment of JSON: [null], [true], [false], integers,
    strings without escapes, arrays and objects. *)
Inductive jtoken :=
| JTValue (v : json)
| JTSym (c : Z).

Fixpoint jlex (fuel : nat) (s : pystr) : option (list jtoken) :=
  match fuel with
  | O => None
  | S n =>
      match s with
      | [] => Some []
      | c :: s' =>
          if (c =? 32) || (c =? 9) || (c =? 10) || (c =? 13) then jlex n s'
          else if bool_decide (c ∈ u "[]{},:") then cons (JTSym c) <$> jlex n s'
          else if c =? dquote then
            let body := take (run_length (other_than dquote) s') s' in
            if bool_decide (dquote ∈ s') && negb (bool_decide (backslash ∈ body))
               && forallb (fun x => 32 <=? x) body
            then cons (JTValue (JStr body)) <$> jlex n (drop (S (length body)) s')
            else None
          else if starts_with (u "null") s then cons (JTValue JNull) <$> jlex n (drop 4 s)
          else if starts_with (u "true") s then cons (JTValue (JBool true)) <$> jlex n (drop 4 s)
          else if starts_with (u "false") s then cons (JTValue (JBool false)) <$> jlex n (drop 5 s)
          else
            let '(neg, d) := match s with 45 :: d => (true, d) | _ => (false, s) end in
            let ds := take (run_length is_ascii_digit d) d in
            let after := drop (length ds) d in
            if bool_decide (ds = []) || ((1 <? length ds)%nat && bool_decide (head ds = Some 48))
               || bool_decide (head after ∈ [Some 46; Some 101; Some 69])
            then None
            else cons (JTValue (JInt (if neg then - digits_value 0 ds else digits_value 0 ds)))
                   <$> jlex n after
      end
  end.

Fixpoint jvalue (fuel : nat) (ts : list jtoken) : option (json * list jtoken) :=
  match fuel with
  | O => None
  | S n =>
      match ts with
      | JTValue v :: ts' => Some (v, ts')
      | JTSym c :: ts' =>
          if c =? 91 then
            match ts' with
            | JTSym 93 :: ts'' => Some (JArr [], ts'')
            | _ => '(xs, ts'') ← jitems n ts'; Some (JArr xs, ts'')
            end
          else if c =? 123 then
            match ts' with
            | JTSym 125 :: ts'' => Some (JObj [], ts'')
            | _ => '(kvs, ts'') ← jmembers n ts'; Some (JObj kvs, ts'')
            end
          else None
      | [] => None
      end
  end
with jitems (fuel : nat) (ts : list jtoken) : option (list json * list jtoken) :=
  match fuel with
  | O => None
  | S n =>
      '(x, ts1) ← jvalue n ts;
      match ts1 with
      | JTSym 93 :: ts2 => Some ([x], ts2)
      | JTSym 44 :: ts2 => '(xs, ts3) ← jitems n ts2; Some (x :: xs, ts3)
      | _ => None
      end
  end
with jmembers (fuel : nat) (ts : list jtoken) : option (list (pystr * json) * list jtoken) :=
  match fuel with
  | O => None
  | S n =>
      match ts with
      | JTValue (JStr k) :: JTSym 58 :: ts1 =>
          '(x, ts2) ← jvalue n ts1;
          match ts2 with
          | JTSym 125 :: ts3 => Some ([(k, x)], ts3)
          | JTSym 44 :: ts3 => '(kvs, ts4) ← jmembers n ts3; Some ((k, x) :: kvs, ts4)
          | _ => None
          end
      | _ => None
      end
  end.

Definition reference_loads (s : pystr) : result json :=
  match jlex (S (length s)) s with
  | Some ts =>
      match jvalue (2 * length ts + 2) ts with
      | Some (v, []) => Ok v
      | _ => Raise JSONDecodeError
      end
  | None => Raise JSONDecodeError
  end.

End RuleSource.

(* ===================================================================== *)
(** * [eagleeye/graph]: the audit workflow                                *)
(* ===================================================================== *)

Module Workflow.
Import Report.

(** The parsed document, as far as the workflow reads it ([FinancialData]
    is the dictionary of its fields, a field without a value bound to
    [None]). *)
Record Document := {
  file_name : pystr;
  doc_raw_text : pystr;
  doc_financial_data : pydict
}.

(** [Document.extract_keywords] *)
Definition terms : list pystr :=
  map u ["政府补助"; "营业外收入"; "递延收益"; "在建工程"; "存货"; "应收账款"; "其他应收款";
         "短期借款"; "长期借款"; "有息债务"; "经营活动现金流"; "投资活动"; "筹资活动";
         "贸易收入"; "毛利率"].

Definition extract_keywords (d : Document) : list pystr :=
  filter (fun term => contains term (doc_raw_text d) = true) terms.

(** [FinancialData.to_eval_dict] *)
Definition is_None (v : value) : bool :=
  match v with VNone => true | _ => false end.

Definition to_eval_dict (fd : pydict) : pydict :=
  filter (fun kv => is_None (snd kv) = false) fd.

(** The text of an [error_message]. *)
Inductive failure :=
| ParsingFailed (e : exn)
| RetrievalFailed (e : exn)
| ReportFailed (e : exn).

(** The value of a key of the state dictionary. *)
Inductive fval :=
| FNone
| FBool (b : bool)
| FInt (z : Z)
| FStr (s : pystr)
| FStrs (l : list pystr)
| FExn (e : exn)
| FDocument (d : Document)
| FData (d : pydict)
| FRule (r : RuleSource.Rule)
| FRules (l : list RuleSource.Rule)
| FFindings (l : list Finding)
| FReport (r : AuditReport)
| FJson (j : RuleSource.json)
| FFailure (f : failure).

(** [AuditState] is a [TypedDict] with [total=False]: a dictionary that may
    lack keys.  A node returns a dictionary of the keys it updates. *)
Abbreviation AuditState := (gmap string fval).

Definition get_rules (s : AuditState) (k : string) : list RuleSource.Rule :=
  match s !! k with Some (FRules l) => l | _ => [] end.
Definition get_int (s : AuditState) (k : string) : Z :=
  match s !! k with Some (FInt z) => z | _ => 0 end.
Definition get_findings (s : AuditState) (k : string) : list Finding :=
  match s !! k with Some (FFindings l) => l | _ => [] end.
Definition get_str (s : AuditState) (k : string) : pystr :=
  match s !! k with Some (FStr t) => t | _ => [] end.
Definition get_strs (s : AuditState) (k : string) : list pystr :=
  match s !! k with Some (FStrs l) => l | _ => [] end.
Definition get_report (s : AuditState) : option AuditReport :=
  match s !! "report" with Some (FReport r) => Some r | _ => None end.

(** [create_initial_state] (the clock reading [start_time] left out) *)
Definition create_initial_state (pdf_path : pystr) (check_all_rules : bool) : AuditState :=
  list_to_map
    [("pdf_path", FStr pdf_path); ("check_all_rules", FBool check_all_rules);
     ("document", FNone); ("raw_text", FStr []); ("financial_data", FNone);
     ("extracted_keywords", FStrs []); ("parse_error", FNone);
     ("retrieved_rules", FRules []); ("all_rules", FRules []);
     ("current_rule_index", FInt 0); ("current_rule", FNone);
     ("findings", FFindings []); ("rules_checked", FInt 0);
     ("rules_with_violations", FInt 0); ("report", FNone);
     ("report_markdown", FStr []); ("report_json", FJson (RuleSource.JObj []));
     ("should_continue", FBool true); ("error_message", FNone)].

Definition severity_map (priority : pystr) : ViolationSeverity :=
  if str_eqb priority (u "Critical") then CRITICAL
  else if str_eqb priority (u "High") then HIGH
  else if str_eqb priority (u "Medium") then MEDIUM
  else if str_eqb priority (u "Low") then LOW
  else MEDIUM.

Section Nodes.
Context `{PyHost}.

(** The collaborators of the nodes: the PDF parser, the rule retriever,
    the constructor of the reporter and the two renderers of a report. *)
Variable pdf_parse : pystr -> result Document.
Variable open_retriever : result unit.
Variable retrieve_all_rules : result (list RuleSource.Rule).
Variable retrieve_for_document :
  pystr -> list pystr -> result (list (RuleSource.Rule * float)).
Variable open_reporter : result unit.
Variable to_markdown : AuditReport -> pystr.
Variable to_json : AuditReport -> RuleSource.json.

(** [parse_node] *)
Definition parse_node (state : AuditState) : AuditState :=
  match pdf_parse (get_str state "pdf_path") with
  | Ok document =>
      list_to_map
        [("document", FDocument document); ("raw_text", FStr (doc_raw_text document));
         ("financial_data", FData (doc_financial_data document));
         ("extracted_keywords", FStrs (extract_keywords document));
         ("parse_error", FNone)]
  | Raise e =>
      list_to_map
        [("parse_error", FExn e); ("should_continue", FBool false);
         ("error_message", FFailure (ParsingFailed e))]
  end.

(** [retrieve_node] *)
Definition retrieve_node (state : AuditState) : AuditState :=
  let attempt : result AuditState :=
    _ ← open_retriever;
    if match state !! "check_all_rules" with Some (FBool b) => b | _ => true end then
      all_rules ← retrieve_all_rules;
      Ok (list_to_map [("all_rules", FRules all_rules); ("retrieved_rules", FRules all_rules);
                       ("current_rule_index", FInt 0)])
    else
      retrieved ← retrieve_for_document (get_str state "raw_text")
                                        (get_strs state "extracted_keywords");
      all_rules ← retrieve_all_rules;
      Ok (list_to_map [("retrieved_rules", FRules (map fst retrieved));
                       ("all_rules", FRules all_rules); ("current_rule_index", FInt 0)]) in
  match attempt with
  | Ok update => update
  | Raise e =>
      list_to_map [("error_message", FFailure (RetrievalFailed e));
                   ("should_continue", FBool false)]
  end.

(** [audit_node]: one rule per call.  What leaves [evaluate] uncaught
    leaves the node uncaught: its [except Exception] does not catch it. *)
Definition audit_node (state : AuditState) : completion AuditState :=
  let rules := get_rules state "retrieved_rules" in
  let current_index := get_int state "current_rule_index" in
  if Z.of_nat (length rules) <=? current_index
  then Returns (list_to_map [("should_continue", FBool false)])
  else
    match rules !! Z.to_nat current_index with
    | None => Returns (list_to_map [("should_continue", FBool false)])
    | Some rule =>
        match state !! "financial_data" with
        | Some (FData financial_data) =>
            let eval_dict := to_eval_dict financial_data in
            result ← evaluate (RuleSource.logic_schema rule) eval_dict;
            let finding :=
              {| rule_id := RuleSource.rule_id rule;
                 rule_subject := RuleSource.subject rule;
                 category := RuleSource.category rule;
                 severity := severity_map (RuleSource.priority rule);
                 logic_schema := RuleSource.logic_schema rule;
                 evaluation_result := true;
                 evidence := Evaluator.evidence result;
                 calculated_value := Evaluator.calculated_value result;
                 threshold_value := Evaluator.threshold_value result;
                 description := RuleSource.description rule;
                 recommendation := [];
                 audit_procedures := RuleSource.audit_procedures rule |} in
            let violated := violation result in
            Returns
              (list_to_map
                 [("current_rule_index", FInt (current_index + 1));
                  ("current_rule", FRule rule);
                  ("rules_checked", FInt (get_int state "rules_checked" + 1));
                  ("rules_with_violations",
                   FInt (get_int state "rules_with_violations" + (if violated then 1 else 0)));
                  ("findings", FFindings (if violated then [finding] else []));
                  ("should_continue",
                   FBool (current_index + 1 <? Z.of_nat (length rules)))])
        | _ =>
            Returns
              (list_to_map
                 [("current_rule_index", FInt (current_index + 1));
                  ("rules_checked", FInt (get_int state "rules_checked" + 1))])
        end
    end.

(** [report_node] (the clock reading [end_time] left out) *)
Definition report_node (state : AuditState) : AuditState :=
  match open_reporter with
  | Ok _ =>
      let report :=
        create_report
          (match state !! "document" with
           | Some (FDocument d) => file_name d
           | _ => u "Unknown"
           end)
          (get_str state "pdf_path")
          (get_findings state "findings")
          (get_int state "rules_checked") in
      list_to_map
        [("report", FReport report); ("report_markdown", FStr (to_markdown report));
         ("report_json", FJson (to_json report))]
  | Raise e => list_to_map [("error_message", FFailure (ReportFailed e))]
  end.

(** [should_continue_audit]: [true] for ["audit"], [false] for ["report"]. *)
Definition should_continue_audit (state : AuditState) : bool :=
  match state !! "error_message" with
  | Some (FFailure _) => false
  | _ => match state !! "should_continue" with
         | Some (FBool b) => b
         | _ => false
         end
  end.

(** ** The graph of [build_audit_workflow] and how LangGraph runs it *)
Inductive node := parse | retrieve | audit | report.

Definition run_node (n : node) (state : AuditState) : completion AuditState :=
  match n with
  | parse => Returns (parse_node state)
  | retrieve => Returns (retrieve_node state)
  | audit => audit_node state
  | report => Returns (report_node state)
  end.

(** The edges; [None] is [END].  The conditional edge reads the state the
    node has just updated. *)
Definition next_node (n : node) (state : AuditState) : option node :=
  match n with
  | parse => Some retrieve
  | retrieve => Some audit
  | audit => Some (if should_continue_audit state then audit else report)
  | report => None
  end.

(** How a node's update enters the state: [findings] is declared
    [Annotated[list[Finding], add]], so its update is appended; every other
    key is overwritten. *)
Definition apply_update (state update : AuditState) : AuditState :=
  let merged := update ∪ state in
  match update !! "findings" with
  | Some (FFindings new) => <["findings" := FFindings (get_findings state "findings" ++ new)]> merged
  | _ => merged
  end.

(** One run of the graph from node [n]: the updates in order, each under the
    name of its node, and the final state; [None] when the graph needs more
    than [limit] steps ([GraphRecursionError]).  What a node lets through
    uncaught ends the run and reaches the caller of the graph. *)
Fixpoint drive (limit : nat) (n : node) (state : AuditState)
    : completion (option (list (node * AuditState) * AuditState)) :=
  match limit with
  | O => Returns None
  | S k =>
      update ← run_node n state;
      let state' := apply_update state update in
      match next_node n state' with
      | None => Returns (Some ([(n, update)], state'))
      | Some n' =>
          rest ← drive k n' state';
          Returns ('(chunks, final) ← rest; Some ((n, update) :: chunks, final))
      end
  end.

(** [workflow.invoke(initial_state)]: the final state. *)
Definition invoke (limit : nat) (initial : AuditState) : completion (option AuditState) :=
  fmap (M := option) snd <$> drive limit parse initial.

(** [workflow.stream(initial_state)]: one dictionary [{node: update}] per
    step.  The early releases of LangGraph stream one more dictionary at
    the end, [{"__end__": final_state}]; [end_chunk] tells which release
    is installed. *)
Inductive chunk_key :=
| AtNode (n : node)
| AtEnd.

Definition stream (end_chunk : bool) (limit : nat) (initial : AuditState)
    : completion (option (list (chunk_key * AuditState))) :=
  rest ← drive limit parse initial;
  Returns ('(chunks, final) ← rest;
           Some (map (fun c => (AtNode (fst c), snd c)) chunks
                 ++ (if end_chunk then [(AtEnd, final)] else []))).

(** What [AuditWorkflowRunner.run] returns: the final state in batch mode,
    the last dictionary streamed in streaming mode. *)
Inductive run_result :=
| FinalState (s : AuditState)
| LastChunk (c : option (chunk_key * AuditState)).

Definition run (end_chunk : bool) (limit : nat) (pdf_path : pystr)
    (check_all_rules stream_mode : bool) : completion (option run_result) :=
  let initial_state := create_initial_state pdf_path check_all_rules in
  if stream_mode then fmap (M := option) (LastChunk ∘ last) <$> stream end_chunk limit initial_state
  else fmap (M := option) FinalState <$> invoke limit initial_state.

(** The report a caller finds in what [run] returned: [state["report"]] of
    the final state, [state["report"]["report"]] of the last dictionary
    streamed (or [state["__end__"]["report"]]). *)
Definition report_of (r : run_result) : option AuditReport :=
  match r with
  | FinalState s => get_report s
  | LastChunk (Some (AtNode report, update)) => get_report update
  | LastChunk (Some (AtEnd, final)) => get_report final
  | LastChunk _ => None
  end.

End Nodes.
End Workflow.



(* ===================================================================== *)
(** * The failures of an evaluation, said without the walk                *)
(* ===================================================================== *)

Module EvaluatorTerms.
Section WithHost.
Context `{PyHost}.

(** [e] evaluates to a value. *)
Definition returns (e : expr) : Prop := exists v, _eval_node e = Ok v.

(** The operand [e] evaluates to a value whose truth is [b]. *)
Definition evaluates_to_truth (b : bool) (e : expr) : Prop :=
  exists x, _eval_node e = Ok x /\ truthy x = b.

(** The name a call calls, when its function is a name. *)
Definition called_name (func : expr) : option pystr :=
  match func with Name id => Some id | _ => None end.

(** [breaks tree e]: evaluating [tree] meets the failure [e].

    The first group are the constructs the evaluator does not support: a
    node type, a name, a function, an operator outside its whitelists.
    The second are the operations that raise on the values they are given:
    a [TypeError] of an operator, a comparison or a function, a
    [ZeroDivisionError] of [%], an [OverflowError].  The third says where
    in a tree the failure may sit: in any part that is evaluated, after
    the parts evaluated before it have returned. *)
Inductive breaks : expr -> exn -> Prop :=
| unsupported_node kind :
    breaks (OtherNode kind) (UnsupportedNode kind)
| unknown_name id :
    id <> u "True" -> id <> u "False" -> id <> u "None" ->
    breaks (Name id) (UnknownName id)
| unsupported_function func args :
    called_name func ≫= SAFE_FUNCTIONS = None ->
    breaks (Call func args) (UnsupportedFunction (called_name func))
| unsupported_operator l op r :
    returns l -> returns r -> safe_binary op = false ->
    breaks (BinOp l op r) (UnsupportedOperator op)
| unsupported_unary_operator op x :
    returns x -> safe_unary op = false ->
    breaks (UnaryOp op x) (UnsupportedUnaryOperator op)
| operator_raises l op r vl vr e :
    _eval_node l = Ok vl -> _eval_node r = Ok vr -> safe_binary op = true ->
    (op = Div -> py_eq vr (VInt 0) = false) ->
    py_binop op vl vr = Raise e ->
    breaks (BinOp l op r) e
| unary_operator_raises op x v e :
    _eval_node x = Ok v -> safe_unary op = true -> py_unary op v = Raise e ->
    breaks (UnaryOp op x) e
| function_raises f g args vs e :
    SAFE_FUNCTIONS f = Some g ->
    map_result _eval_node args = Ok vs ->
    apply_safe g vs = Raise e ->
    breaks (Call (Name f) args) e
| iteration_raises elt target iter ifs more v e :
    _eval_node iter = Ok v -> py_iter v = Raise e ->
    breaks (GeneratorExp elt target iter ifs more) e
| in_comparison l ops comparators v e :
    _eval_node l = Ok v -> chain_breaks comparators ops v e ->
    breaks (Compare l ops comparators) e
| in_list_item pre x post e :
    Forall returns pre -> breaks x e -> breaks (EList (pre ++ x :: post)) e
| in_tuple_item pre x post e :
    Forall returns pre -> breaks x e -> breaks (ETuple (pre ++ x :: post)) e
| in_left_operand l op r e :
    breaks l e -> breaks (BinOp l op r) e
| in_right_operand l op r e :
    returns l -> breaks r e -> breaks (BinOp l op r) e
| in_operand op x e :
    breaks x e -> breaks (UnaryOp op x) e
| in_compared l ops comparators e :
    breaks l e -> breaks (Compare l ops comparators) e
| in_conjunct pre x post e :
    Forall (evaluates_to_truth true) pre -> breaks x e ->
    breaks (BoolOp And (pre ++ x :: post)) e
| in_disjunct pre x post e :
    Forall (evaluates_to_truth false) pre -> breaks x e ->
    breaks (BoolOp Or (pre ++ x :: post)) e
| in_argument f g pre x post e :
    SAFE_FUNCTIONS f = Some g -> Forall returns pre -> breaks x e ->
    breaks (Call (Name f) (pre ++ x :: post)) e
| in_test test body orelse e :
    breaks test e -> breaks (IfExp test body orelse) e
| in_body test body orelse e :
    evaluates_to_truth true test -> breaks body e -> breaks (IfExp test body orelse) e
| in_orelse test body orelse e :
    evaluates_to_truth false test -> breaks orelse e -> breaks (IfExp test body orelse) e
| in_iterable elt target iter ifs more e :
    breaks iter e -> breaks (GeneratorExp elt target iter ifs more) e
| in_element elt target iter ifs more v item items e :
    _eval_node iter = Ok v -> py_iter v = Ok (item :: items) -> breaks elt e ->
    breaks (GeneratorExp elt target iter ifs more) e
(** [chain_breaks comparators ops left e]: the comparisons that follow an
    operand of value [left] meet the failure [e]. *)
with chain_breaks : list expr -> list cmpop -> value -> exn -> Prop :=
| in_comparator c comparators op ops left e :
    breaks c e -> chain_breaks (c :: comparators) (op :: ops) left e
| comparison_raises c comparators op ops left right e :
    _eval_node c = Ok right -> compare_op op left right = Raise e ->
    chain_breaks (c :: comparators) (op :: ops) left e
| in_later_comparison c comparators op ops left right e :
    _eval_node c = Ok right -> compare_op op left right = Ok true ->
    chain_breaks comparators ops right e ->
    chain_breaks (c :: comparators) (op :: ops) left e.

(** ** The fields an expression names *)

(** A character of a field name as [_get_missing_fields] reads it: an
    ideograph or an underscore. *)
Definition is_field_char (c : Z) : bool := is_cjk c || (c =? 95).

(** [w] is a maximal run of characters of the class [p] in [text]: it is
    not empty, it stands in [text], and no character of the class stands
    right before it or right behind it. *)
Definition maximal_run (p : Z -> bool) (text w : pystr) : Prop :=
  w <> [] /\ Forall (fun c => p c = true) w
  /\ exists pre post,
       text = pre ++ w ++ post
       /\ (forall c, last pre = Some c -> p c = false)
       /\ (forall c, head post = Some c -> p c = false).

(** [raises schema data e]: one of the steps of [evaluate] before the
    result is known meets the failure [e]: the normalisation, the
    binding, the parser (a syntax error apart), or the walk of the tree. *)
Inductive raises (schema : pystr) (data : pydict) (e : exn) : Prop :=
| normalisation_raises :
    _preprocess_schema schema = Raise e -> raises schema data e
| binding_raises processed ev :
    _preprocess_schema schema = Ok processed ->
    _substitute_values processed data = (Raise e, ev) ->
    raises schema data e
| parser_raises processed text ev :
    _preprocess_schema schema = Ok processed ->
    _substitute_values processed data = (Ok text, ev) ->
    _has_missing_data text = false ->
    ast_parse text = ParseRaises e ->
    raises schema data e
| walk_raises processed text ev tree :
    _preprocess_schema schema = Ok processed ->
    _substitute_values processed data = (Ok text, ev) ->
    _has_missing_data text = false ->
    ast_parse text = Parsed tree ->
    breaks tree e ->
    raises schema data e.

(** [unparsable schema data text]: the expression, normalised and bound,
    is the text [text], which passes the completeness check and is a
    syntax error for the parser. *)
Definition unparsable (schema : pystr) (data : pydict) (text : pystr) : Prop :=
  exists processed ev,
    _preprocess_schema schema = Ok processed
    /\ _substitute_values processed data = (Ok text, ev)
    /\ _has_missing_data text = false
    /\ ast_parse text = SyntaxError.

End WithHost.
End EvaluatorTerms.

(* ===================================================================== *)
(** * Fixtures of the worked examples                                     *)
(* ===================================================================== *)

Module Fixtures.

(** [evaluate] on the reference host. *)
Definition run_example (schema : string) (data : pydict) : completion EvaluationOutcome :=
  @evaluate Reference.host (u schema) data.

(** [0.77], [0.4], [0.015]: the floats the decimal literals denote. *)
Definition f_0_77 : float := float_of_decimal 77 (-2).
Definition f_0_4 : float := float_of_decimal 4 (-1).
Definition f_0_015 : float := float_of_decimal 15 (-3).

End Fixtures.

(* ===================================================================== *)
(** * The report accumulator                                              *)
(* ===================================================================== *)

Module ReportFacts.
Import Report.

Lemma add_finding_findings (r : AuditReport) (f : Finding) :
  findings (add_finding r f) = findings r ++ [f].
Proof. reflexivity. Qed.

Lemma add_finding_total (r : AuditReport) (f : Finding) :
  total_violations (add_finding r f) = total_violations r + 1.
Proof. reflexivity. Qed.

Lemma add_finding_severity_sum (r : AuditReport) (f : Finding) :
  critical_count (add_finding r f) + high_count (add_finding r f)
  + medium_count (add_finding r f) + low_count (add_finding r f)
  = critical_count r + high_count r + medium_count r + low_count r + 1.
Proof. unfold add_finding; simpl. destruct (severity f); lia. Qed.

Lemma add_finding_keeps_counts_agree (r : AuditReport) (f : Finding) :
  counts_agree r -> counts_agree (add_finding r f).
Proof.
  intros [Htotal Hsum]. split.
  - rewrite add_finding_total, add_finding_findings, Htotal.
    rewrite length_app. simpl. lia.
  - rewrite add_finding_severity_sum, add_finding_total. lia.
Qed.

Lemma new_report_counts_agree (name path : pystr) (checked : Z) :
  counts_agree (new_report name path checked).
Proof. split; reflexivity. Qed.

Lemma fold_add_finding_counts_agree (fs : list Finding) (r : AuditReport) :
  counts_agree r -> counts_agree (fold_left add_finding fs r).
Proof.
  revert r. induction fs as [|f fs IH]; intros r Hr; simpl.
  - exact Hr.
  - apply IH. now apply add_finding_keeps_counts_agree.
Qed.

Lemma fold_add_finding_findings (fs : list Finding) (r : AuditReport) :
  findings (fold_left add_finding fs r) = findings r ++ fs.
Proof.
  revert r. induction fs as [|f fs IH]; intros r; simpl.
  - now rewrite app_nil_r.
  - rewrite IH, add_finding_findings, <- app_assoc. reflexivity.
Qed.

(** C8.  After any sequence of [add_finding] calls on a fresh report,
    [total_violations] is the length of [findings] and the four severity
    counts add up to it.  A call appends the finding and moves the counts
    in the same step: the report it returns has the finding at the end of
    the list, the total one higher, and the invariant again. *)
Theorem accumulator_invariant (name path : pystr) (checked : Z) (fs : list Finding) :
  let r := fold_left add_finding fs (new_report name path checked) in
  counts_agree r
  /\ findings r = fs
  /\ forall f : Finding,
       findings (add_finding r f) = findings r ++ [f]
       /\ total_violations (add_finding r f) = total_violations r + 1
       /\ counts_agree (add_finding r f).
Proof.
  cbv zeta.
  assert (Hr : counts_agree (fold_left add_finding fs (new_report name path checked)))
    by (apply fold_add_finding_counts_agree, new_report_counts_agree).
  split; [exact Hr|]. split.
  - now rewrite fold_add_finding_findings.
  - intros f. split; [reflexivity|]. split; [reflexivity|].
    now apply add_finding_keeps_counts_agree.
Qed.

(** [create_report] of the reporter inherits the invariant. *)
Corollary create_report_counts_agree (name path : pystr) (fs : list Finding) (checked : Z) :
  counts_agree (create_report name path fs checked)
  /\ findings (create_report name path fs checked) = fs
  /\ total_rules_checked (create_report name path fs checked) = checked.
Proof.
  unfold create_report. split; [|split].
  - apply fold_add_finding_counts_agree, new_report_counts_agree.
  - now rewrite fold_add_finding_findings.
  - induction fs as [|f fs IH] using rev_ind; [reflexivity|].
    rewrite fold_left_app. simpl. exact IH.
Qed.

End ReportFacts.

(* ===================================================================== *)
(** * The evaluator: what [evaluate] returns                              *)
(* ===================================================================== *)

Module EvaluatorFacts.
Import EvaluatorTerms.
Section WithHost.
Context `{PyHost}.

(** The failure branch never reports a violation. *)
Lemma failed_outcome (ev : gmap pystr value) (e : exn) :
  error (failed ev e) = Some (Message e) /\ violation (failed ev e) = false
  /\ missing_fields (failed ev e) = None /\ Evaluator.evidence (failed ev e) = ev.
Proof. repeat split. Qed.

(** ** The walk of the tree, one equation per kind of node *)

Lemma eval_compare (l : expr) (ops : list cmpop) (comparators : list expr) :
  _eval_node (Compare l ops comparators)
  = left ← _eval_node l; compare_chain comparators ops left.
Proof.
  simpl. destruct (_eval_node l) as [left|e]; [|reflexivity]. simpl.
  revert ops left. induction comparators as [|c cs IH]; intros ops left; [reflexivity|].
  destruct ops as [|op ops]; [reflexivity|]. simpl.
  destruct (_eval_node c) as [right|e]; [|reflexivity]. simpl.
  destruct (compare_op op left right) as [[|]|e]; simpl; [apply IH|reflexivity|reflexivity].
Qed.

Lemma eval_and (values : list expr) :
  _eval_node (BoolOp And values)
  = match values with
    | [] => Ok (VBool true)
    | v :: values' =>
        x ← _eval_node v;
        if truthy x then _eval_node (BoolOp And values') else Ok (VBool false)
    end.
Proof. destruct values; reflexivity. Qed.

Lemma eval_or (values : list expr) :
  _eval_node (BoolOp Or values)
  = match values with
    | [] => Ok (VBool false)
    | v :: values' =>
        x ← _eval_node v;
        if truthy x then Ok (VBool true) else _eval_node (BoolOp Or values')
    end.
Proof. destruct values; reflexivity. Qed.

Lemma eval_list (elts : list expr) :
  _eval_node (EList elts) = VList <$> map_result _eval_node elts.
Proof. reflexivity. Qed.

Lemma eval_tuple (elts : list expr) :
  _eval_node (ETuple elts) = VTuple <$> map_result _eval_node elts.
Proof. reflexivity. Qed.

Lemma eval_call (func : expr) (args : list expr) :
  _eval_node (Call func args)
  = match called_name func ≫= SAFE_FUNCTIONS with
    | Some f => args ← map_result _eval_node args; apply_safe f args
    | None => Raise (UnsupportedFunction (called_name func))
    end.
Proof. destruct func; reflexivity. Qed.

Lemma eval_generator (elt target iter : expr) (ifs : list expr)
    (more : list (expr * expr * list expr)) :
  _eval_node (GeneratorExp elt target iter ifs more)
  = iter_val ← _eval_node iter;
    items ← py_iter iter_val;
    VList <$> map_result (fun _ => _eval_node elt) items.
Proof. reflexivity. Qed.

(** ** Exceptions come up unchanged *)

Lemma map_result_cons {A B} (f : A -> result B) (x : A) (xs : list A) :
  map_result f (x :: xs) = y ← f x; ys ← map_result f xs; Ok (y :: ys).
Proof. reflexivity. Qed.

Lemma map_result_const {A B} (y : B) (l : list A) :
  map_result (fun _ : A => Ok y) l = Ok (replicate (length l) y).
Proof. induction l as [|x l IH]; [reflexivity|]. cbn. cbn in IH. rewrite IH. reflexivity. Qed.

Lemma map_result_raises {A B} (f : A -> result B) (pre : list A) (x : A) (post : list A)
    (e : exn) :
  Forall (fun a => exists b, f a = Ok b) pre ->
  f x = Raise e ->
  map_result f (pre ++ x :: post) = Raise e.
Proof.
  intros Hpre Hx. induction Hpre as [|a pre [b Ha] _ IH].
  - cbn [app]. rewrite map_result_cons, Hx. reflexivity.
  - cbn [app]. rewrite map_result_cons, Ha. cbn [mbind result_bind]. rewrite IH. reflexivity.
Qed.

Lemma conjunction_raises (pre : list expr) (x : expr) (post : list expr) (e : exn) :
  Forall (evaluates_to_truth true) pre ->
  _eval_node x = Raise e ->
  _eval_node (BoolOp And (pre ++ x :: post)) = Raise e.
Proof.
  intros Hpre Hx. induction Hpre as [|a pre [v [Ha Hv]] _ IH].
  - cbn [app]. rewrite eval_and, Hx. reflexivity.
  - cbn [app]. rewrite eval_and, Ha. cbn [mbind result_bind]. rewrite Hv. exact IH.
Qed.

Lemma disjunction_raises (pre : list expr) (x : expr) (post : list expr) (e : exn) :
  Forall (evaluates_to_truth false) pre ->
  _eval_node x = Raise e ->
  _eval_node (BoolOp Or (pre ++ x :: post)) = Raise e.
Proof.
  intros Hpre Hx. induction Hpre as [|a pre [v [Ha Hv]] _ IH].
  - cbn [app]. rewrite eval_or, Hx. reflexivity.
  - cbn [app]. rewrite eval_or, Ha. cbn [mbind result_bind]. rewrite Hv. exact IH.
Qed.

Scheme breaks_chain_ind := Minimality for breaks Sort Prop
  with chain_breaks_ind' := Minimality for chain_breaks Sort Prop.

Ltac open_premises :=
  repeat match goal with
         | Hr : returns _ |- _ => destruct Hr as [? Hr]
         | Ht : evaluates_to_truth _ _ |- _ => destruct Ht as [? [Ht ?]]
         end.

Ltac follow :=
  repeat (cbn [mbind result_bind option_bind called_name fmap result_fmap];
          match goal with
          | Heq : ?x = _ |- context [?x] => rewrite Heq
          end).

(** Each failure of the vocabulary is an exception of the walk: nothing
    inside the walk catches an exception. *)
Lemma breaks_sound (tree : expr) (e : exn) :
  breaks tree e -> _eval_node tree = Raise e.
Proof.
  intros Hbreaks.
  induction Hbreaks using breaks_chain_ind
    with (P0 := fun comparators ops left e => compare_chain comparators ops left = Raise e);
    open_premises;
    rewrite ?eval_call, ?eval_generator, ?eval_compare, ?eval_list, ?eval_tuple;
    try (cbn [_eval_node compare_chain]; follow; reflexivity).
  - cbn [_eval_node]. unfold str_eqb.
    rewrite !bool_decide_eq_false_2 by assumption. reflexivity.
  - cbn [_eval_node]. follow.
    destruct op; try reflexivity; try discriminate.
    match goal with Hz : Div = Div -> _ |- _ => rewrite (Hz eq_refl) end. reflexivity.
  - rewrite (map_result_raises _ pre x post e); [reflexivity|assumption|assumption].
  - rewrite (map_result_raises _ pre x post e); [reflexivity|assumption|assumption].
  - now apply conjunction_raises.
  - now apply disjunction_raises.
  - follow. rewrite (map_result_raises _ pre x post e); [reflexivity|assumption|assumption].
Qed.

(** ** And every exception of the walk is one of these failures *)

(** Induction on a tree, with the hypothesis for every element of a list
    of operands. *)
Lemma expr_induction (P : expr -> Prop) :
  (forall v, P (Constant v)) ->
  (forall elts, Forall P elts -> P (EList elts)) ->
  (forall elts, Forall P elts -> P (ETuple elts)) ->
  (forall l op r, P l -> P r -> P (BinOp l op r)) ->
  (forall op x, P x -> P (UnaryOp op x)) ->
  (forall l ops comparators, P l -> Forall P comparators -> P (Compare l ops comparators)) ->
  (forall op values, Forall P values -> P (BoolOp op values)) ->
  (forall func args, Forall P args -> P (Call func args)) ->
  (forall id, P (Name id)) ->
  (forall test body orelse, P test -> P body -> P orelse -> P (IfExp test body orelse)) ->
  (forall elt target iter ifs more, P elt -> P iter -> P (GeneratorExp elt target iter ifs more)) ->
  (forall kind, P (OtherNode kind)) ->
  forall e, P e.
Proof.
  intros HConstant HList HTuple HBinOp HUnaryOp HCompare HBoolOp HCall HName HIfExp
         HGenerator HOther.
  fix IH 1. intros e.
  assert (Hall : forall l : list expr, Forall P l).
  { fix IHl 1. intros [|x l]; constructor; [apply IH|apply IHl]. }
  destruct e.
  - apply HConstant.
  - apply HList, Hall.
  - apply HTuple, Hall.
  - apply HBinOp; apply IH.
  - apply HUnaryOp; apply IH.
  - apply HCompare; [apply IH|apply Hall].
  - apply HBoolOp, Hall.
  - apply HCall, Hall.
  - apply HName.
  - apply HIfExp; apply IH.
  - apply HGenerator; apply IH.
  - apply HOther.
Qed.

Lemma map_result_raises_inv {A B} (f : A -> result B) (l : list A) (e : exn) :
  map_result f l = Raise e ->
  exists pre x post,
    l = pre ++ x :: post /\ Forall (fun a => exists b, f a = Ok b) pre /\ f x = Raise e.
Proof.
  induction l as [|a l IH]; [discriminate|].
  rewrite map_result_cons. destruct (f a) as [b|e'] eqn:Ha; cbn [mbind result_bind].
  - destruct (map_result f l) as [ys|e'] eqn:Hl; [discriminate|].
    intros [= ->]. destruct (IH eq_refl) as (pre & x & post & -> & Hpre & Hx).
    exists (a :: pre), x, post. repeat split; [|exact Hx].
    constructor; [now exists b|exact Hpre].
  - intros [= ->]. exists [], a, l. repeat split; [constructor|exact Ha].
Qed.

Lemma conjunction_raises_inv (values : list expr) (e : exn) :
  _eval_node (BoolOp And values) = Raise e ->
  exists pre x post,
    values = pre ++ x :: post /\ Forall (evaluates_to_truth true) pre
    /\ _eval_node x = Raise e.
Proof.
  induction values as [|a values IH]; [discriminate|].
  rewrite eval_and. destruct (_eval_node a) as [v|e'] eqn:Ha; cbn [mbind result_bind].
  - destruct (truthy v) eqn:Hv; [|discriminate].
    intros Hrest. destruct (IH Hrest) as (pre & x & post & -> & Hpre & Hx).
    exists (a :: pre), x, post. repeat split; [|exact Hx].
    constructor; [now exists v|exact Hpre].
  - intros [= ->]. exists [], a, values. repeat split; [constructor|exact Ha].
Qed.

Lemma disjunction_raises_inv (values : list expr) (e : exn) :
  _eval_node (BoolOp Or values) = Raise e ->
  exists pre x post,
    values = pre ++ x :: post /\ Forall (evaluates_to_truth false) pre
    /\ _eval_node x = Raise e.
Proof.
  induction values as [|a values IH]; [discriminate|].
  rewrite eval_or. destruct (_eval_node a) as [v|e'] eqn:Ha; cbn [mbind result_bind].
  - destruct (truthy v) eqn:Hv; [discriminate|].
    intros Hrest. destruct (IH Hrest) as (pre & x & post & -> & Hpre & Hx).
    exists (a :: pre), x, post. repeat split; [|exact Hx].
    constructor; [now exists v|exact Hpre].
  - intros [= ->]. exists [], a, values. repeat split; [constructor|exact Ha].
Qed.

Lemma Forall_at {A} (P : A -> Prop) (pre : list A) (x : A) (post : list A) :
  Forall P (pre ++ x :: post) -> P x.
Proof. intros Hall. apply Forall_app in Hall as [_ Hall]. now inversion Hall. Qed.

Ltac now_at pre x post :=
  match goal with
  | Hall : Forall _ (pre ++ x :: post), Hx : _eval_node x = Raise _ |- _ =>
      exact (Forall_at _ pre x post Hall _ Hx)
  end.

Lemma breaks_complete (tree : expr) :
  forall e : exn, _eval_node tree = Raise e -> breaks tree e.
Proof.
  induction tree
    as [v|elts IH|elts IH|l op r IHl IHr|op x IHx|l ops comparators IHl IHcs|op values IH
        |func args IH|id|test body orelse IHtest IHbody IHorelse
        |elt target iter ifs more IHelt IHiter|kind]
    using expr_induction; intros e Hraise.
  - discriminate.
  - rewrite eval_list in Hraise.
    destruct (map_result _eval_node elts) as [vs|e'] eqn:Helts; [discriminate|].
    injection Hraise as ->.
    apply map_result_raises_inv in Helts as (pre & x & post & -> & Hpre & Hx).
    apply in_list_item; [exact Hpre|]. now_at pre x post.
  - rewrite eval_tuple in Hraise.
    destruct (map_result _eval_node elts) as [vs|e'] eqn:Helts; [discriminate|].
    injection Hraise as ->.
    apply map_result_raises_inv in Helts as (pre & x & post & -> & Hpre & Hx).
    apply in_tuple_item; [exact Hpre|]. now_at pre x post.
  - cbn [_eval_node] in Hraise.
    destruct (_eval_node l) as [vl|e1] eqn:Hl; cbn [mbind result_bind] in Hraise;
      [|injection Hraise as ->; apply in_left_operand; now apply IHl].
    destruct (_eval_node r) as [vr|e2] eqn:Hr; cbn [mbind result_bind] in Hraise;
      [|injection Hraise as ->; apply in_right_operand; [now exists vl|now apply IHr]].
    destruct (safe_binary op) eqn:Hsafe.
    + eapply operator_raises; [exact Hl|exact Hr|exact Hsafe| |].
      * intros ->. destruct (py_eq vr (VInt 0)); [discriminate|reflexivity].
      * destruct op; try exact Hraise.
        destruct (py_eq vr (VInt 0)); [discriminate|exact Hraise].
    + injection Hraise as <-.
      apply unsupported_operator; [now exists vl|now exists vr|exact Hsafe].
  - cbn [_eval_node] in Hraise.
    destruct (_eval_node x) as [v|e1] eqn:Hx; cbn [mbind result_bind] in Hraise;
      [|injection Hraise as ->; apply in_operand; now apply IHx].
    destruct (safe_unary op) eqn:Hsafe.
    + eapply unary_operator_raises; eassumption.
    + injection Hraise as <-. apply unsupported_unary_operator; [now exists v|exact Hsafe].
  - rewrite eval_compare in Hraise.
    destruct (_eval_node l) as [v|e1] eqn:Hl; cbn [mbind result_bind] in Hraise;
      [|injection Hraise as ->; apply in_compared; now apply IHl].
    apply (in_comparison _ _ _ v); [exact Hl|].
    clear Hl IHl. revert ops v Hraise.
    induction IHcs as [|c comparators Hc _ IH]; intros ops v Hraise; [discriminate|].
    destruct ops as [|op ops]; [discriminate|]. cbn [compare_chain] in Hraise.
    destruct (_eval_node c) as [right|e1] eqn:Hright; cbn [mbind result_bind] in Hraise;
      [|injection Hraise as ->; apply in_comparator; now apply Hc].
    destruct (compare_op op v right) as [[|]|e1] eqn:Hop; cbn [mbind result_bind] in Hraise.
    + eapply in_later_comparison; [exact Hright|exact Hop|]. now apply IH.
    + discriminate.
    + injection Hraise as ->. eapply comparison_raises; eassumption.
  - destruct op.
    + apply conjunction_raises_inv in Hraise as (pre & x & post & -> & Hpre & Hx).
      apply in_conjunct; [exact Hpre|]. now_at pre x post.
    + apply disjunction_raises_inv in Hraise as (pre & x & post & -> & Hpre & Hx).
      apply in_disjunct; [exact Hpre|]. now_at pre x post.
  - rewrite eval_call in Hraise.
    destruct (called_name func ≫= SAFE_FUNCTIONS) as [g|] eqn:Hname;
      [|injection Hraise as <-; now apply unsupported_function].
    destruct func; try discriminate. cbn [called_name mbind option_bind] in Hname.
    destruct (map_result _eval_node args) as [vs|e1] eqn:Hargs; cbn [mbind result_bind] in Hraise.
    + eapply function_raises; eassumption.
    + injection Hraise as ->.
      apply map_result_raises_inv in Hargs as (pre & x & post & -> & Hpre & Hx).
      eapply in_argument; [exact Hname|exact Hpre|]. now_at pre x post.
  - cbn [_eval_node] in Hraise. unfold str_eqb in Hraise.
    repeat case_bool_decide; try discriminate.
    injection Hraise as <-. now apply unknown_name.
  - cbn [_eval_node] in Hraise.
    destruct (_eval_node test) as [v|e1] eqn:Htest; cbn [mbind result_bind] in Hraise;
      [|injection Hraise as ->; apply in_test; now apply IHtest].
    destruct (truthy v) eqn:Hv.
    + apply in_body; [now exists v|now apply IHbody].
    + apply in_orelse; [now exists v|now apply IHorelse].
  - rewrite eval_generator in Hraise.
    destruct (_eval_node iter) as [v|e1] eqn:Hiter; cbn [mbind result_bind] in Hraise;
      [|injection Hraise as ->; apply in_iterable; now apply IHiter].
    destruct (py_iter v) as [items|e1] eqn:Hitems; cbn [mbind result_bind] in Hraise;
      [|injection Hraise as ->; eapply iteration_raises; eassumption].
    destruct items as [|item items]; [discriminate|].
    rewrite map_result_cons in Hraise.
    destruct (_eval_node elt) as [x|e1] eqn:Helt; cbn [mbind result_bind] in Hraise.
    + rewrite map_result_const in Hraise. discriminate.
    + injection Hraise as ->. eapply in_element; [exact Hiter|exact Hitems|now apply IHelt].
  - injection Hraise as <-. apply unsupported_node.
Qed.

(** ** What [evaluate] returns *)

(** The exceptions of [_safe_eval]: of the parser, a syntax error apart,
    and of the walk. *)
Lemma safe_eval_raises (text : pystr) (e : exn) :
  _safe_eval text = Raise e
  <-> ast_parse text = ParseRaises e
      \/ exists tree, ast_parse text = Parsed tree /\ breaks tree e.
Proof.
  unfold _safe_eval. destruct (ast_parse text) as [tree| |e'].
  - split.
    + intros Hraise. right. exists tree. split; [reflexivity|now apply breaks_complete].
    + intros [Hparse|[tree' [[= <-] Hbreaks]]]; [discriminate|now apply breaks_sound].
  - split; [discriminate|]. intros [Hparse|[tree [Hparse _]]]; discriminate.
  - split.
    + intros [= ->]. now left.
    + intros [[= ->]|[tree [Hparse _]]]; [reflexivity|discriminate].
Qed.

(** The outcome [evaluate] returns, when it returns, step by step. *)
Lemma returned_outcome (schema : pystr) (data : pydict) (o : EvaluationOutcome) :
  evaluate schema data = Returns o ->
  match _preprocess_schema schema with
  | Raise e => o = failed ∅ e
  | Ok processed =>
      match _substitute_values processed data with
      | (Raise e, ev) => o = failed ev e
      | (Ok text, ev) =>
          if _has_missing_data text then
            o = {| violation := false; evidence := ev; calculated_value := None;
                   threshold_value := None; error := Some InsufficientData;
                   missing_fields := Some (_get_missing_fields processed data) |}
          else
            match _safe_eval text with
            | Raise e => o = failed ev e
            | Ok v =>
                exists calculated,
                  _extract_calculated_value text = Returns calculated
                  /\ o = {| violation := truthy v; evidence := ev;
                            calculated_value := calculated;
                            threshold_value := _extract_threshold_value schema;
                            error := None; missing_fields := None |}
            end
      end
  end.
Proof.
  unfold evaluate.
  destruct (_preprocess_schema schema) as [processed|e]; [|now intros [= <-]].
  destruct (_substitute_values processed data) as [[text|e] ev]; [|now intros [= <-]].
  destruct (_has_missing_data text); [now intros [= <-]|].
  destruct (_safe_eval text) as [v|e]; [|now intros [= <-]].
  destruct (_extract_calculated_value text) as [calculated| |]; [|discriminate ..].
  intros [= <-]. now exists calculated.
Qed.


(** C2.  An outcome with [error] set has [violation = false]. *)
Theorem error_implies_not_violated (schema : pystr) (data : pydict) (o : EvaluationOutcome) :
  evaluate schema data = Returns o -> error o <> None -> violation o = false.
Proof.
  intros Hreturn Hset. apply returned_outcome in Hreturn.
  destruct (_preprocess_schema schema) as [processed|e]; [|now subst o].
  destruct (_substitute_values processed data) as [[text|e] ev]; [|now subst o].
  destruct (_has_missing_data text); [now subst o|].
  destruct (_safe_eval text) as [v|e]; [|now subst o].
  destruct Hreturn as [calculated [_ ->]]. now contradiction Hset.
Qed.

(** ** Division by zero *)

(** C7.  A division whose operands evaluate and whose right operand equals
    zero does not raise: it evaluates to positive infinity, whatever the
    left operand.  A comparison with that division as its left operand is
    resolved as the same comparison with positive infinity on the left. *)
Theorem division_by_zero_is_infinity (l r : expr) (vl vr : value) :
  _eval_node l = Ok vl ->
  _eval_node r = Ok vr ->
  py_eq vr (VInt 0) = true ->
  _eval_node (BinOp l Div r) = Ok (VFloat infinity)
  /\ forall (ops : list cmpop) (comparators : list expr),
       _eval_node (Compare (BinOp l Div r) ops comparators)
       = compare_chain comparators ops (VFloat infinity).
Proof.
  intros Hl Hr Hzero.
  assert (Hdiv : _eval_node (BinOp l Div r) = Ok (VFloat infinity)).
  { cbn [_eval_node]. rewrite Hl, Hr. cbn. rewrite Hzero. reflexivity. }
  split; [exact Hdiv|].
  intros ops comparators. rewrite eval_compare, Hdiv. reflexivity.
Qed.


(** ** The completeness check *)

Lemma match_many (p : Z -> bool) (prev : option Z) (s : pystr) :
  re_match [plain (AMany p 1)] prev s
  = match run_length p s with
    | O => None
    | S n => Some ([], (S n + 0)%nat)
    end.
Proof.
  cbn [re_match body plain captured].
  destruct (run_length p s) as [|n]; reflexivity.
Qed.

Lemma match_chinese (prev : option Z) (s : pystr) :
  re_match chinese_pattern prev s
  = match run_length is_cjk s with
    | O => None
    | S n => Some ([], (S n + 0)%nat)
    end.
Proof. apply match_many. Qed.

Lemma run_length_head (p : Z -> bool) (c : Z) (s : pystr) :
  run_length p (c :: s) = if p c then S (run_length p s) else O.
Proof. reflexivity. Qed.

Lemma findall_chinese_sound (s : pystr) :
  forall (prev : option Z) (skip : nat),
    hits (re_scan chinese_pattern prev skip s) <> [] ->
    exists c, c ∈ s /\ is_cjk c = true.
Proof.
  induction s as [|c s IH]; intros prev skip Hhits.
  - destruct skip; cbn [re_scan] in Hhits; [|simpl in Hhits; congruence].
    rewrite match_chinese in Hhits. simpl in Hhits. congruence.
  - destruct (is_cjk c) eqn:Hc; [exists c; split; [left|exact Hc]|].
    assert (Hrest : exists prev' skip', hits (re_scan chinese_pattern prev' skip' s) <> []).
    { destruct skip as [|k]; cbn [re_scan] in Hhits.
      - rewrite match_chinese, run_length_head, Hc in Hhits. eauto.
      - eauto. }
    destruct Hrest as [prev' [skip' Hrest]].
    destruct (IH _ _ Hrest) as [d [Hd Hcjk]]. exists d. split; [now right|exact Hcjk].
Qed.

Lemma findall_chinese_complete (s : pystr) :
  forall (prev : option Z) (c : Z),
    c ∈ s -> is_cjk c = true ->
    hits (re_scan chinese_pattern prev O s) <> [].
Proof.
  induction s as [|d s IH]; intros prev c Hin Hc.
  - inversion Hin.
  - cbn [re_scan]. rewrite match_chinese, run_length_head.
    destruct (is_cjk d) eqn:Hd.
    + simpl. discriminate.
    + apply (IH (Some d) c); [|exact Hc].
      inversion Hin; subst; [congruence|assumption].
Qed.

Lemma in_string_parity (s : pystr) (b : bool) :
  fold_left (fun (st : bool) c => if (c =? dquote) || (c =? squote) then negb st else st) s b
  = xorb b (Nat.odd (length (filter (fun c => is_quote c = true) s))).
Proof.
  revert b. induction s as [|c s IH]; intros b; simpl.
  - now destruct b.
  - rewrite IH. unfold filter; simpl. fold (is_quote c).
    destruct (is_quote c) eqn:Hq.
    + rewrite decide_True by reflexivity. simpl length. rewrite Nat.odd_succ.
      rewrite <- Nat.negb_odd. fold (filter (fun c => is_quote c = true) s).
      destruct b, (Nat.odd _); reflexivity.
    + rewrite decide_False by discriminate. reflexivity.
Qed.

(** The check answers "missing" exactly when the text holds an ideograph
    and an even number of quote characters. *)
Lemma has_missing_data_spec (text : pystr) :
  _has_missing_data text = true
  <-> (exists c, c ∈ text /\ is_cjk c = true)
      /\ Nat.even (length (filter (fun c => is_quote c = true) text)) = true.
Proof.
  unfold _has_missing_data. rewrite in_string_parity. simpl xorb.
  rewrite andb_true_iff, !negb_true_iff, bool_decide_eq_false, <- Nat.negb_even, negb_false_iff.
  unfold re_findall. split; intros [Hc Hq]; (split; [|exact Hq]).
  - apply (findall_chinese_sound text None O). intros Hnil. apply Hc. now rewrite Hnil.
  - destruct Hc as [c [Hin Hcjk]]. intros Hnil.
    apply (findall_chinese_complete text None c Hin Hcjk).
    now destruct (hits _).
Qed.

(** Without a quote character the check is the search for an ideograph. *)
Lemma has_missing_data_unquoted (text : pystr) :
  (forall c, c ∈ text -> is_quote c = false) ->
  (exists c, c ∈ text /\ is_cjk c = true) ->
  _has_missing_data text = true.
Proof.
  intros Hquotes Hc. apply has_missing_data_spec. split; [exact Hc|].
  assert (Hnone : filter (fun c => is_quote c = true) text = []).
  { clear Hc. induction text as [|c text IH]; [reflexivity|].
    rewrite filter_cons, decide_False.
    - apply IH. intros d Hd. apply Hquotes. now right.
    - rewrite (Hquotes c) by left. discriminate. }
  now rewrite Hnone.
Qed.

(** ** The runs a scan for [[class]+] finds *)

Lemma run_length_prefix (p : Z -> bool) (w post : pystr) :
  Forall (fun c => p c = true) w ->
  (forall c, head post = Some c -> p c = false) ->
  run_length p (w ++ post) = length w.
Proof.
  intros Hw Hpost. induction Hw as [|c w Hc _ IH].
  - destruct post as [|d post]; [reflexivity|]. cbn. now rewrite (Hpost d eq_refl).
  - cbn. now rewrite Hc, IH.
Qed.

Lemma take_run_length (p : Z -> bool) (s : pystr) (n : nat) :
  (n <= run_length p s)%nat -> Forall (fun c => p c = true) (take n s).
Proof.
  revert n. induction s as [|c s IH]; intros n Hn; [rewrite take_nil; constructor|].
  destruct n as [|n]; [constructor|]. cbn [take]. cbn [run_length] in Hn.
  destruct (p c) eqn:Hc; [|lia]. constructor; [exact Hc|]. apply IH. lia.
Qed.

Lemma drop_run_length (p : Z -> bool) (s : pystr) (c : Z) :
  head (drop (run_length p s) s) = Some c -> p c = false.
Proof.
  induction s as [|d s IH]; [discriminate|]. cbn [run_length].
  destruct (p d) eqn:Hd; [exact IH|]. cbn. now intros [= <-].
Qed.

(** A text that starts with a character outside the class has the runs of
    its tail. *)
Lemma maximal_run_skip (p : Z -> bool) (c : Z) (s w : pystr) :
  p c = false -> maximal_run p (c :: s) w <-> maximal_run p s w.
Proof.
  intros Hc. split; intros (Hne & Hw & pre & post & Htext & Hpre & Hpost).
  - repeat split; [exact Hne|exact Hw|].
    destruct pre as [|d pre].
    + destruct w as [|d w]; [congruence|]. injection Htext as <- _.
      inversion Hw; congruence.
    + injection Htext as <- ->. exists pre, post. repeat split; [|exact Hpost].
      intros d Hd. apply Hpre. destruct pre; [discriminate|exact Hd].
  - repeat split; [exact Hne|exact Hw|].
    exists (c :: pre), post. repeat split; [now rewrite Htext| |exact Hpost].
    intros d Hd. destruct pre as [|x pre]; [now injection Hd as <-|]. now apply Hpre.
Qed.

(** A text that starts with a run [a] of the class, ended by the end of the
    text or by a character outside the class, has the run [a] and the runs
    of what follows. *)
Lemma maximal_run_first (p : Z -> bool) (a rest w : pystr) :
  a <> [] -> Forall (fun c => p c = true) a ->
  (forall c, head rest = Some c -> p c = false) ->
  maximal_run p (a ++ rest) w <-> w = a \/ maximal_run p rest w.
Proof.
  intros Hane Ha Hrest. split.
  - intros (Hne & Hw & pre & post & Htext & Hpre & Hpost).
    destruct pre as [|d pre].
    + left. cbn [app] in Htext.
      assert (Hlen : length w = length a).
      { rewrite <- (run_length_prefix p w post Hw Hpost), <- Htext.
        now apply run_length_prefix. }
      apply (f_equal (take (length a))) in Htext.
      rewrite take_app_length in Htext. rewrite <- Hlen, take_app_length in Htext. congruence.
    + right. apply app_eq_inv in Htext as [[k [Ha' Hk]]|[k [Hpre' Hk]]].
      * (* [pre] ends inside [a]: its last character is of the class *)
        exfalso. destruct (last (d :: pre)) as [x|] eqn:Hlast; [|now apply last_None in Hlast].
        assert (Hx : p x = true).
        { apply last_Some in Hlast as [front Hfront]. rewrite Hfront in Ha'.
          rewrite Ha' in Ha. apply Forall_app in Ha as [Ha _].
          apply Forall_app in Ha as [_ Ha]. now inversion Ha. }
        rewrite (Hpre x eq_refl) in Hx. discriminate.
      * destruct k as [|y k].
        -- exfalso. rewrite app_nil_r in Hpre'.
           destruct (last (d :: pre)) as [x|] eqn:Hlast; [|now apply last_None in Hlast].
           assert (Hx : p x = true).
           { apply last_Some in Hlast as [front Hfront]. rewrite Hpre' in Hfront.
             rewrite Hfront in Ha. apply Forall_app in Ha as [_ Ha]. now inversion Ha. }
           rewrite (Hpre x eq_refl) in Hx. discriminate.
        -- repeat split; [exact Hne|exact Hw|].
           exists (y :: k), post. repeat split; [exact Hk| |exact Hpost].
           intros x Hx. apply Hpre. rewrite Hpre'.
           rewrite last_app. now rewrite Hx.
  - intros [->|(Hne & Hw & pre & post & Htext & Hpre & Hpost)].
    + repeat split; [exact Hane|exact Ha|]. exists [], rest. repeat split; [discriminate|exact Hrest].
    + repeat split; [exact Hne|exact Hw|].
      exists (a ++ pre), post. repeat split; [now rewrite Htext, <- app_assoc| |exact Hpost].
      intros x Hx. destruct pre as [|y pre].
      * exfalso. cbn [app] in Htext. destruct w as [|z w]; [congruence|].
        rewrite Htext in Hrest. specialize (Hrest z eq_refl). inversion Hw; congruence.
      * apply Hpre. rewrite last_app in Hx.
        destruct (last (y :: pre)) eqn:Hlast; [exact Hx|now apply last_None in Hlast].
Qed.

Lemma hits_hit (w : pystr) (gs : list pystr) (ps : list piece) :
  hits (Hit w gs :: ps) = (w, gs) :: hits ps.
Proof. reflexivity. Qed.

Lemma hits_keep (c : Z) (ps : list piece) : hits (Keep c :: ps) = hits ps.
Proof. reflexivity. Qed.

(** What a scan for [[class]+] finds are the maximal runs of the class. *)
Lemma scan_many_runs (p : Z -> bool) (s : pystr) :
  forall (prev : option Z) (skip : nat) (w : pystr),
    w ∈ map fst (hits (re_scan [plain (AMany p 1)] prev skip s))
    <-> maximal_run p (drop skip s) w.
Proof.
  induction s as [|c s IH]; intros prev skip w.
  - assert (Hnone : hits (re_scan [plain (AMany p 1)] prev skip []) = []).
    { destruct skip; cbn [re_scan]; [rewrite match_many|]; reflexivity. }
    rewrite Hnone, drop_nil. split; [inversion 1|].
    intros (Hne & _ & pre & post & Htext & _).
    symmetry in Htext. apply app_eq_nil in Htext as [_ Htext].
    apply app_eq_nil in Htext as [Htext _]. congruence.
  - destruct skip as [|k]; cbn [re_scan]; [|apply IH].
    rewrite match_many. rewrite drop_0.
    destruct (run_length p (c :: s)) as [|n] eqn:Hrun.
    + cbn [run_length] in Hrun. destruct (p c) eqn:Hc; [discriminate|].
      cbv beta iota. rewrite hits_keep, (IH (Some c) O w), drop_0. symmetry. now apply maximal_run_skip.
    + change (S n + 0)%nat with (S (n + 0)). cbv beta iota. rewrite hits_hit. cbn [map fst].
      rewrite elem_of_cons, (IH (Some c) (n + 0)%nat w), Nat.add_0_r.
      assert (Htext : c :: s = take (S n) (c :: s) ++ drop n s)
        by (change (drop n s) with (drop (S n) (c :: s)); now rewrite take_drop).
      assert (Hfirst : maximal_run p (take (S n) (c :: s) ++ drop n s) w
                       <-> w = take (S n) (c :: s) \/ maximal_run p (drop n s) w).
      { apply maximal_run_first.
        - discriminate.
        - apply take_run_length. lia.
        - change (drop n s) with (drop (S n) (c :: s)). rewrite <- Hrun.
          apply drop_run_length. }
      rewrite <- Htext in Hfirst. symmetry. exact Hfirst.
Qed.

(** The fields [_get_missing_fields] reports: the maximal runs of
    ideographs and underscores of the text that the record binds to no
    value. *)
Lemma missing_fields_spec (processed : pystr) (data : pydict) (field : pystr) :
  field ∈ _get_missing_fields processed data
  <-> maximal_run is_field_char processed field /\ bound_value data field = None.
Proof.
  unfold _get_missing_fields, re_findall, field_pattern.
  rewrite elem_of_list_to_set, list_elem_of_filter.
  rewrite (scan_many_runs is_field_char processed None O field), drop_0.
  assert (Hunbound : unbound data field = true <-> bound_value data field = None).
  { unfold unbound, bound_value. destruct (dict_get data field) as [[]|]; split; congruence. }
  rewrite Hunbound. tauto.
Qed.


(** ** The evidence *)

Lemma insert_key_elem (k x : pystr) (ks : list pystr) :
  x ∈ insert_key k ks <-> x = k \/ x ∈ ks.
Proof.
  induction ks as [|y ks IH]; simpl.
  - rewrite list_elem_of_singleton. split; [auto|]. intros [->|Hin]; [reflexivity|inversion Hin].
  - destruct (length k <? length y)%nat.
    + rewrite !elem_of_cons, IH. tauto.
    + rewrite !elem_of_cons. tauto.
Qed.

Lemma sorted_keys_elem (data : pydict) (k : pystr) :
  k ∈ sorted_keys data <-> k ∈ map fst data.
Proof.
  unfold sorted_keys. induction (map fst data) as [|x xs IH]; simpl; [reflexivity|].
  rewrite insert_key_elem, IH, elem_of_cons. reflexivity.
Qed.

Lemma dict_get_in (data : pydict) (k : pystr) (v : value) :
  dict_get data k = Some v -> k ∈ map fst data.
Proof.
  induction data as [|[k' v'] data IH]; simpl; [discriminate|].
  unfold str_eqb. case_bool_decide as Hk.
  - intros _. subst. left.
  - intros Hget. right. now apply IH.
Qed.

Lemma substitute_keys_evidence (data : pydict) (keys : list pystr) :
  forall (text : pystr) (ev0 : gmap pystr value) (r : Py.result pystr) (ev : gmap pystr value),
    substitute_keys data keys text ev0 = (r, ev) ->
    (exists t, r = Ok t) ->
    forall k : pystr,
      ev !! k = match (if decide (k ∈ keys) then bound_value data k else None) with
                | Some v => Some v
                | None => ev0 !! k
                end.
Proof.
  induction keys as [|key keys IH]; intros text ev0 r ev Hrun Hok k; simpl in Hrun.
  - injection Hrun as <- <-. rewrite decide_False by apply not_elem_of_nil. reflexivity.
  - assert (Hskip : bound_value data key = None ->
                    substitute_keys data keys text ev0 = (r, ev) ->
                    ev !! k = match (if decide (k ∈ key :: keys) then bound_value data k else None)
                              with Some v => Some v | None => ev0 !! k end).
    { intros Hnone Hrest. rewrite (IH _ _ _ _ Hrest Hok k).
      destruct (decide (k ∈ keys)) as [Hin|Hnin].
      - rewrite decide_True by now right. reflexivity.
      - destruct (decide (k = key)) as [->|Hne].
        + rewrite decide_True by left. now rewrite Hnone.
        + rewrite decide_False; [reflexivity|]. rewrite elem_of_cons. tauto. }
    assert (Hbound : forall v text', bound_value data key = Some v ->
              substitute_keys data keys text' (<[key := v]> ev0) = (r, ev) ->
              ev !! k = match (if decide (k ∈ key :: keys) then bound_value data k else None)
                        with Some v => Some v | None => ev0 !! k end).
    { intros v text' Hv Hrest. rewrite (IH _ _ _ _ Hrest Hok k).
      destruct (decide (k ∈ keys)) as [Hin|Hnin].
      - rewrite decide_True by now right.
        destruct (bound_value data k) eqn:Hk; [reflexivity|].
        rewrite lookup_insert_ne; [reflexivity|]. intros <-. congruence.
      - destruct (decide (k = key)) as [->|Hne].
        + rewrite decide_True by left. now rewrite lookup_insert_eq, Hv.
        + rewrite decide_False by (rewrite elem_of_cons; tauto).
          now rewrite lookup_insert_ne. }
    destruct (dict_get data key) as [v|] eqn:Hget;
      [|apply Hskip; [unfold bound_value; now rewrite Hget|exact Hrun]].
    destruct v;
      try (apply Hskip; [unfold bound_value; now rewrite Hget|exact Hrun]);
      (destruct (mbind _ _) as [text'|e];
       [eapply Hbound; [unfold bound_value; now rewrite Hget|exact Hrun]
       |injection Hrun as <- <-; destruct Hok as [t Ht]; discriminate]).
Qed.

(** The evidence of an outcome that [evaluate] returns is what the binding
    left behind. *)
Lemma returned_evidence (schema : pystr) (data : pydict) (o : EvaluationOutcome)
    (processed : pystr) (r : Py.result pystr) (ev : gmap pystr value) :
  evaluate schema data = Returns o ->
  _preprocess_schema schema = Ok processed ->
  _substitute_values processed data = (r, ev) ->
  Evaluator.evidence o = ev.
Proof.
  intros Hreturn Hpre Hsub. apply returned_outcome in Hreturn.
  rewrite Hpre, Hsub in Hreturn. destruct r as [text|e]; [|now subst o].
  destruct (_has_missing_data text); [now subst o|].
  destruct (_safe_eval text); [|now subst o].
  destruct Hreturn as [calculated [_ ->]]. reflexivity.
Qed.


(** ** Comprehensions *)

(** The value of a generator expression does not depend on its [if]
    clauses: every element of the iterable contributes. *)
Lemma generator_ignores_its_filters
    (elt target iter : expr) (ifs : list expr) (more : list (expr * expr * list expr)) :
  _eval_node (GeneratorExp elt target iter ifs more)
  = _eval_node (GeneratorExp elt target iter [] more).
Proof. reflexivity. Qed.

Lemma sum_of_ones (n : nat) (acc : Z) :
  py_sum (replicate n (VInt 1)) (VInt acc) = Ok (VInt (acc + Z.of_nat n)).
Proof.
  unfold py_sum. revert acc. induction n as [|n IH]; intros acc.
  - cbn. f_equal. f_equal. lia.
  - cbn [replicate fold_left]. cbn [mbind result_bind py_binop as_int].
    rewrite IH. f_equal. f_equal. lia.
Qed.

(** So the count that [COUNT(xs OP v)] is rewritten into,
    [sum(1 for x in xs if x OP v)], is the number of elements of whatever
    sequence [xs] evaluates to, whatever its [if] clauses say. *)
Theorem count_rewrite_counts_everything (target iter : expr) (ifs : list expr)
    (more : list (expr * expr * list expr)) (v : value) (items : list value) :
  _eval_node iter = Ok v ->
  py_iter v = Ok items ->
  _eval_node (Call (Name (u "sum")) [GeneratorExp (Constant (VInt 1)) target iter ifs more])
  = Ok (VInt (Z.of_nat (length items))).
Proof.
  intros Hiter Hitems.
  assert (Hgen : _eval_node (GeneratorExp (Constant (VInt 1)) target iter ifs more)
                 = Ok (VList (replicate (length items) (VInt 1)))).
  { rewrite eval_generator, Hiter. cbn [mbind result_bind]. rewrite Hitems.
    cbn [mbind result_bind _eval_node]. rewrite map_result_const. reflexivity. }
  rewrite eval_call. change (called_name (Name (u "sum")) ≫= SAFE_FUNCTIONS) with (Some f_sum).
  rewrite map_result_cons, Hgen.
  cbn [map_result mbind result_bind apply_safe py_iter].
  rewrite sum_of_ones. reflexivity.
Qed.

(** ** What [evaluate] lets through *)

Lemma calculated_loop_ends (expression : pystr) (ops : list pystr) :
  (forall x, calculated_loop expression ops <> Returns x) ->
  exists op : pystr,
    op ∈ ops /\ contains op expression = true
    /\ (fun _ => tt) <$> builtin_eval_float
                          [(u "expression", VStr expression); (u "op", VStr op);
                           (u "left_side",
                            VStr (strip (default [] (head (split_on op expression)))))]
                          (strip (default [] (head (split_on op expression))))
       = (fun _ => tt) <$> calculated_loop expression ops.
Proof.
  induction ops as [|op ops IH]; intros Hends; [now contradiction (Hends None)|].
  cbn [calculated_loop] in *.
  destruct (contains op expression) eqn:Hop.
  - destruct (builtin_eval_float _ _) as [[x|e]| |] eqn:Heval; cbn [mbind completion_bind] in *.
    + now contradiction (Hends (Some x)).
    + destruct (IH Hends) as (op' & Hin & Hop' & Hsame).
      exists op'. split; [now right|]. split; [exact Hop'|exact Hsame].
    + exists op. split; [left|]. split; [exact Hop|]. now rewrite Heval.
    + exists op. split; [left|]. split; [exact Hop|]. now rewrite Heval.
  - destruct (IH Hends) as (op' & Hin & Hop' & Hsame).
    exists op'. split; [now right|]. split; [exact Hop'|exact Hsame].
Qed.


End WithHost.
End EvaluatorFacts.

(* ===================================================================== *)
(** * The workflow: batch mode and streaming mode                         *)
(* ===================================================================== *)

Module WorkflowFacts.
Import Report Workflow.
Section WithCollaborators.
Context `{PyHost}.
Variable pdf_parse : pystr -> result Document.
Variable open_retriever : result unit.
Variable retrieve_all_rules : result (list RuleSource.Rule).
Variable retrieve_for_document :
  pystr -> list pystr -> result (list (RuleSource.Rule * float)).
Variable open_reporter : result unit.
Variable to_markdown : AuditReport -> pystr.
Variable to_json : AuditReport -> RuleSource.json.

Local Abbreviation run_node :=
  (run_node pdf_parse open_retriever retrieve_all_rules retrieve_for_document
            open_reporter to_markdown to_json).
Local Abbreviation drive :=
  (drive pdf_parse open_retriever retrieve_all_rules retrieve_for_document
         open_reporter to_markdown to_json).
Local Abbreviation run :=
  (run pdf_parse open_retriever retrieve_all_rules retrieve_for_document
       open_reporter to_markdown to_json).

(** Only the report node writes the key [report]. *)
Lemma report_key_untouched (n : node) (s update : AuditState) :
  n <> report -> run_node n s = Returns update -> update !! "report" = None.
Proof.
  intros Hn. destruct n; [| | |congruence]; simpl.
  - intros [= <-]. unfold parse_node. destruct (pdf_parse _); reflexivity.
  - intros [= <-]. unfold retrieve_node. destruct open_retriever as [[]|e]; [|reflexivity]. simpl.
    destruct (match s !! "check_all_rules" with Some (FBool b) => b | _ => true end).
    + destruct retrieve_all_rules; reflexivity.
    + destruct (retrieve_for_document _ _); [|reflexivity]. simpl.
      destruct retrieve_all_rules; reflexivity.
  - unfold audit_node.
    destruct (_ <=? _); [now intros [= <-]|].
    destruct (_ !! Z.to_nat _); [|now intros [= <-]].
    destruct (s !! "financial_data") as [[]|]; try (now intros [= <-]).
    destruct (evaluate _ _); [|discriminate ..]. now intros [= <-].
Qed.

(** The report of an updated state: the update's, or else the state's. *)
Lemma get_report_apply_update (s update : AuditState) :
  get_report (apply_update s update)
  = match update !! "report" with
    | Some (FReport r) => Some r
    | Some _ => None
    | None => get_report s
    end.
Proof.
  unfold apply_update, get_report.
  assert (Hmerged : (update ∪ s) !! "report"
                    = match update !! "report" with Some v => Some v | None => s !! "report" end).
  { rewrite lookup_union. destruct (update !! "report"), (s !! "report"); reflexivity. }
  destruct (update !! "findings") as [[]|];
    rewrite ?lookup_insert_ne by discriminate; rewrite Hmerged;
    destruct (update !! "report") as [[]|]; reflexivity.
Qed.

Lemma report_node_report (s : AuditState) :
  report_node open_reporter to_markdown to_json s !! "report" = None
  \/ exists r, report_node open_reporter to_markdown to_json s !! "report" = Some (FReport r).
Proof.
  unfold report_node. destruct open_reporter; [right|left]; [eexists|]; reflexivity.
Qed.

(** A run that starts before any report exists ends with the update of the
    report node, and the final state holds the report of that update. *)
Lemma drive_ends_with_report (limit : nat) :
  forall (n : node) (s final : AuditState) (chunks : list (node * AuditState)),
    get_report s = None ->
    drive limit n s = Returns (Some (chunks, final)) ->
    exists update, last chunks = Some (report, update)
                   /\ get_report final = get_report update.
Proof.
  induction limit as [|k IH]; intros n s final chunks Hnone Hrun; [discriminate|].
  cbn [Workflow.drive] in Hrun.
  destruct (run_node n s) as [update| |] eqn:Hnode; [|discriminate ..].
  cbn [mbind completion_bind] in Hrun.
  assert (Hcase : n = report \/ n <> report)
    by (destruct n; [right; discriminate ..|left; reflexivity]).
  destruct Hcase as [->|Hn].
  - cbn [next_node] in Hrun. injection Hrun as <- <-.
    injection Hnode as <-.
    eexists. split; [reflexivity|].
    rewrite get_report_apply_update.
    destruct (report_node_report s) as [Hr|[r Hr]].
    + rewrite Hr. unfold get_report at 2. rewrite Hr. exact Hnone.
    + rewrite Hr. unfold get_report. rewrite Hr. reflexivity.
  - assert (Hnext : exists n', next_node n (apply_update s update) = Some n')
      by (destruct n; [eexists; reflexivity ..|congruence]).
    destruct Hnext as [n' Hnext]. rewrite Hnext in Hrun.
    destruct (drive k n' _) as [[[chunks' final']|]| |] eqn:Hrest; [|discriminate ..].
    cbn in Hrun. injection Hrun as <- <-.
    apply IH in Hrest.
    + destruct Hrest as [update' [Hlast Hrep]]. exists update'. split; [|exact Hrep].
      destruct chunks' as [|c cs]; [discriminate|]. exact Hlast.
    + rewrite get_report_apply_update, (report_key_untouched n s update Hn Hnode). exact Hnone.
Qed.


End WithCollaborators.
End WorkflowFacts.

(* ===================================================================== *)
(** * Worked examples on the reference host                               *)
(* ===================================================================== *)

Module Examples.
Import EvaluatorTerms EvaluatorFacts Fixtures.

(** An outcome is computed, then read. *)
Ltac computed := eexists; split; [vm_compute; reflexivity|vm_compute; repeat split].

(** ** The examples of the specification *)

Example simple_comparison :
  exists o, run_example "x > 0.7" [(u "x", VFloat f_0_77)] = Returns o
    /\ violation o = true /\ Evaluator.evidence o = {[ u "x" := VFloat f_0_77 ]}
    /\ error o = None.
Proof. computed. Qed.

Example complex_expression :
  exists o, run_example "(a / (b + c)) < 0.5"
              [(u "a", VInt 50000000); (u "b", VInt 200000000); (u "c", VInt 150000000)]
            = Returns o
    /\ violation o = true.
Proof. computed. Qed.

Example and_condition :
  exists o, run_example "(p > 0.3) AND (q < 0.02)"
              [(u "p", VFloat f_0_4); (u "q", VFloat f_0_015)] = Returns o
    /\ violation o = true.
Proof. computed. Qed.

Example missing_chinese_field :
  exists o, run_example "不存在的字段 > 100" [(u "其他字段", VInt 50)] = Returns o
    /\ violation o = false /\ error o = Some InsufficientData
    /\ missing_fields o = Some {[ u "不存在的字段" ]}.
Proof. computed. Qed.

Example division_by_zero_example :
  exists o, run_example "10 / x > 5" [(u "x", VInt 0)] = Returns o
    /\ violation o = true /\ error o = None.
Proof. computed. Qed.

(** ** C1: an expression that does not parse ends without an error *)


(** The fallback can even report a violation: ["007 > 3"] is a syntax
    error for the parser and [7.0 > 3.0] for the fallback. *)
Example fallback_may_report_a_violation :
  @ast_parse Reference.host (u "007 > 3") = SyntaxError
  /\ exists o, run_example "007 > 3" [] = Returns o
       /\ error o = None /\ violation o = true.
Proof. split; [vm_compute; reflexivity|computed]. Qed.


(** ** C2 *)
Lemma error_implies_not_violated_witness :
  exists o, run_example "missing_field > 100" [(u "other", VInt 50)] = Returns o
    /\ error o <> None /\ violation o = false.
Proof.
  assert (Hrun : exists o, run_example "missing_field > 100" [(u "other", VInt 50)] = Returns o
                           /\ error o <> None)
    by (eexists; split; [vm_compute; reflexivity|vm_compute; discriminate]).
  destruct Hrun as [o [Hreturn Herror]]. exists o.
  split; [exact Hreturn|]. split; [exact Herror|].
  exact (@error_implies_not_violated Reference.host (u "missing_field > 100")
           [(u "other", VInt 50)] o Hreturn Herror).
Defined.

(** ** C3: the count ignores the predicate *)

(** Of the elements of [[1, -1, -2]] two are below zero; the evaluator
    counts three, so [COUNT(xs < 0) > 2] is reported as violated. *)
Theorem count_ignores_the_predicate :
  let data := [(u "xs", VList [VInt 1; VInt (-1); VInt (-2)])] in
  @_preprocess_schema Reference.host (u "COUNT(xs < 0) > 2")
  = Ok (u "sum(1 for x in xs if x < 0) > 2")
  /\ @_safe_eval Reference.host (u "sum(1 for x in [1, -1, -2] if x < 0)") = Ok (VInt 3)
  /\ length (filter (fun z => (z <? 0) = true) [1; -1; -2]) = 2%nat
  /\ exists o, run_example "COUNT(xs < 0) > 2" data = Returns o
       /\ violation o = true /\ error o = None.
Proof.
  cbv zeta. split; [vm_compute; reflexivity|]. split; [vm_compute; reflexivity|].
  split; [vm_compute; reflexivity|]. computed.
Qed.



(** ** C5: well-typed and bound, yet an error *)

(** A text field bound to a Chinese text: the ideographs sit inside the
    quotes of the literal, and the check still answers "missing". *)
Theorem bound_chinese_text_is_taken_for_missing :
  let data := [(u "name", VStr (u "财务"))] in
  dict_get data (u "name") = Some (VStr (u "财务"))
  /\ exists o, run_example "name == 'ab'" data = Returns o
       /\ error o = Some InsufficientData
       /\ missing_fields o = Some ∅.
Proof. cbv zeta. split; [vm_compute; reflexivity|computed]. Qed.

(** The "contains" operator is rewritten into a call of [any], which the
    whitelist rejects. *)
Example contains_operator_is_rejected :
  @_preprocess_schema Reference.host (u "x 包含 [1]")
  = Ok (u "any(item in x for item in [1])")
  /\ exists o, run_example "x 包含 [1]" [(u "x", VList [VInt 1; VInt 2])] = Returns o
       /\ error o = Some (Message (UnsupportedFunction (Some (u "any")))).
Proof. split; [vm_compute; reflexivity|computed]. Qed.

(** ** C6: the evidence holds fields the expression does not name *)
Theorem evidence_holds_unused_fields :
  let data := [(u "x", VFloat f_0_77); (u "y", VInt 1)] in
  contains (u "y") (u "x > 0.7") = false
  /\ exists o, run_example "x > 0.7" data = Returns o
       /\ violation o = true
       /\ Evaluator.evidence o !! u "y" = Some (VInt 1)
       /\ Evaluator.evidence o = {[ u "x" := VFloat f_0_77; u "y" := VInt 1 ]}.
Proof. cbv zeta. split; [vm_compute; reflexivity|computed]. Qed.


(** ** C7 *)
Lemma division_by_zero_witness :
  @_eval_node Reference.host (BinOp (Constant (VInt 10)) Div (Constant (VInt 0)))
  = Ok (VFloat infinity)
  /\ forall (ops : list cmpop) (comparators : list expr),
       @_eval_node Reference.host
         (Compare (BinOp (Constant (VInt 10)) Div (Constant (VInt 0))) ops comparators)
       = @compare_chain Reference.host comparators ops (VFloat infinity).
Proof.
  exact (@division_by_zero_is_infinity Reference.host (Constant (VInt 10))
           (Constant (VInt 0)) (VInt 10) (VInt 0) eq_refl eq_refl eq_refl).
Defined.

(** ** The count, on the tree the parser builds *)
Lemma count_rewrite_counts_everything_witness :
  let iter := EList [Constant (VInt 1); UnaryOp USub (Constant (VInt 1));
                     UnaryOp USub (Constant (VInt 2))] in
  let ifs := [Compare (Name (u "x")) [Lt] [Constant (VInt 0)]] in
  let tree := Call (Name (u "sum"))
                [GeneratorExp (Constant (VInt 1)) (Name (u "x")) iter ifs []] in
  @ast_parse Reference.host (u "sum(1 for x in [1, -1, -2] if x < 0)") = Parsed tree
  /\ @_eval_node Reference.host tree = Ok (VInt 3).
Proof.
  cbv zeta. split; [vm_compute; reflexivity|].
  exact (@count_rewrite_counts_everything Reference.host (Name (u "x"))
           (EList [Constant (VInt 1); UnaryOp USub (Constant (VInt 1));
                   UnaryOp USub (Constant (VInt 2))])
           [Compare (Name (u "x")) [Lt] [Constant (VInt 0)]] []
           (VList [VInt 1; VInt (-1); VInt (-2)]) [VInt 1; VInt (-1); VInt (-2)]
           eq_refl eq_refl).
Defined.

(** ** What [eval] lets through *)

(** ["exit() > 1 +"] is a syntax error that the fallback answers, and its
    left-hand side is handed to [eval]: the call of [exit] ends
    [evaluate] with [SystemExit]. *)
Example left_side_is_handed_to_eval :
  @ast_parse Reference.host (u "exit() > 1 +") = SyntaxError
  /\ @_safe_eval Reference.host (u "exit() > 1 +") = Ok (VBool false)
  /\ run_example "exit() > 1 +" [] = Escapes SystemExit.
Proof. vm_compute. repeat split. Qed.


(** ** C9: a line that is JSON but not an object stops the load *)
Theorem non_object_line_raises :
  RuleSource.reference_loads (u "42") = Ok (RuleSource.JInt 42)
  /\ RuleSource.from_jsonl_line RuleSource.reference_loads (u "42") = Raise TypeError
  /\ RuleSource.load_rules_from_jsonl RuleSource.reference_loads [u "42"] = Raise TypeError
  /\ RuleSource.load_rules_from_jsonl RuleSource.reference_loads [u "not json"] = Ok [].
Proof. vm_compute. repeat split. Qed.

End Examples.
